(** * pyarena: the Arena log tracker ([src/pyarena/arena_log.py])

    A shallow embedding of [ArenaLog] and [FileEventHandler], together
    with the properties of the rotation-aware log tracker.

    - [Module Pathlib]: the fragment of [pathlib] the source uses
      (POSIX flavour: separator [/], no drive letters).
    - [Module Backend]: the interface of a watchdog observer as the
      source consumes it ([schedule], [start], [stop], [join],
      [is_alive]), over a store of observer objects.
    - [Module Arena]: [ArenaLog] ([__init__], [find_logfile],
      [get_watchdog_observer], [handle_log_moved], [handle_log_deleted],
      [__del__]) and [FileEventHandler] ([__init__], [dispatch],
      [on_moved], [on_deleted]). *)

From Stdlib Require Import String Ascii Bool Arith Lia.
From stdpp Require Import base list.
From Stdlib Require Import List.
Import ListNotations.

Local Open Scope string_scope.
Local Open Scope list_scope.

(* ===================================================================== *)
(** ** Module constants (lines 10-19 of the source)                       *)
(* ===================================================================== *)

Definition WINDOWS_PLATFORM_IDENTIFIER : string := "Windows".
Definition COMPANY_SUBFOLDER_NAME : string := "Wizards Of The Coast".
Definition APPLICATION_SUBFOLDER_NAME : string := "MTGA".
Definition CURRENT_LOGFILE_NAME : string := "Player.log".
Definition PREVIOUS_LOGFILE_NAME : string := "Player-prev.log".
Definition DEFAULT_POLLING_OBSERVER_INTERVAL : nat := 1.

(* ===================================================================== *)
(** ** pathlib, POSIX flavour                                             *)
(* ===================================================================== *)

Module Pathlib.

(** A path is its anchor ([""] when relative, ["/"] or ["//"] when
    rooted) and the components after it. *)
Record Path : Type := mkPath { anchor : string; parts : list string }.

Definition slash : ascii := "/"%char.

(** [s.split(c)]: the fields of [s] between occurrences of [c]. *)
Fixpoint split_on (c : ascii) (s : string) : list string :=
  match s with
  | EmptyString => [EmptyString]
  | String a s' =>
      if Ascii.eqb a c then EmptyString :: split_on c s'
      else match split_on c s' with
           | [] => [String a EmptyString]
           | x :: xs => String a x :: xs
           end
  end.

Fixpoint leading (c : ascii) (s : string) : nat :=
  match s with
  | String a s' => if Ascii.eqb a c then S (leading c s') else 0
  | EmptyString => 0
  end.

(** The root of a POSIX path: none, ["//"] for exactly two leading
    slashes, ["/"] otherwise. *)
Definition anchor_of (s : string) : string :=
  match leading slash s with
  | 0 => ""
  | 2 => "//"
  | _ => "/"
  end.

Definition keep_part (x : string) : bool :=
  negb (String.eqb x "") && negb (String.eqb x ".").

(** [Path(s)] *)
Definition Path_of_str (s : string) : Path :=
  {| anchor := anchor_of s;
     parts := List.filter keep_part (split_on slash s) |}.

(** [str(p)] *)
Definition str (p : Path) : string :=
  match anchor p, parts p with
  | EmptyString, [] => "."
  | a, ps => a ++ String.concat "/" ps
  end.

(** [p.parent] *)
Definition parent (p : Path) : Path :=
  {| anchor := anchor p; parts := removelast (parts p) |}.

(** [p.name] *)
Definition name (p : Path) : string := last (parts p) "".

(** [p / q] for two paths: a rooted right operand replaces the left. *)
Definition joinpath (p q : Path) : Path :=
  match anchor q with
  | EmptyString => {| anchor := anchor p; parts := parts p ++ parts q |}
  | _ => q
  end.

(** [p / s] for a string operand. *)
Definition div (p : Path) (s : string) : Path := joinpath p (Path_of_str s).

End Pathlib.

Import Pathlib.
Infix "//" := Pathlib.div (at level 40, left associativity).

(* ===================================================================== *)
(** ** Exceptions and the state-and-exception monad                       *)
(* ===================================================================== *)

(** The exceptions the module raises, and the two [RuntimeError]s that
    [threading.Thread] raises on a misuse of [start] and [join]. *)
Inductive exn : Type :=
| TypeError                          (* "Unsupported path type: ..." *)
| ValueError                         (* "Provided file does not exist at ..." *)
| NO_LOGFILE_FOUND_EXCEPTION         (* RuntimeError, line 87 *)
| NotImplementedError (system : string)
| UNABLE_TO_STOP_OBSERVER_EXCEPTION  (* RuntimeError, line 19 *)
| ThreadStartedTwice                 (* RuntimeError of Thread.start *)
| ThreadJoinedUnstarted              (* RuntimeError of Thread.join *)
| ReferenceError.                    (* an object that is not in the store *)

Inductive result (A : Type) : Type :=
| Ok (a : A)
| Raise (e : exn).
Arguments Ok {A} a.
Arguments Raise {A} e.

(** A computation over a state [S] that returns or raises; on a raise the
    state is the one reached when the exception left. *)
Definition M (S A : Type) : Type := S -> result A * S.

Definition ret {S A} (a : A) : M S A := fun s => (Ok a, s).
Definition raise {S A} (e : exn) : M S A := fun s => (Raise e, s).
Definition bind {S A B} (m : M S A) (k : A -> M S B) : M S B :=
  fun s => match m s with
           | (Ok a, s') => k a s'
           | (Raise e, s') => (Raise e, s')
           end.
Definition gets {S A} (f : S -> A) : M S A := fun s => (Ok (f s), s).
Definition modify {S} (f : S -> S) : M S unit := fun s => (Ok tt, f s).

Declare Scope prog_scope.
Delimit Scope prog_scope with prog.
Notation "x <- m ;; k" := (bind m (fun x => k))
  (at level 100, m at next level, k at level 200, right associativity) : prog_scope.
Notation "m ;; k" := (bind m (fun _ => k))
  (at level 100, k at level 200, right associativity) : prog_scope.
Local Open Scope prog_scope.

(* ===================================================================== *)
(** ** The process environment                                            *)
(* ===================================================================== *)

(** What the module reads from its surroundings. [observer_quiesces]
    tells whether the observers that watchdog builds on this platform
    have terminated when [join] returns after a [stop]. *)
Record Env : Type := mkEnv {
  system : string;                      (* platform.system() *)
  environ : string -> option string;    (* os.environ *)
  home : Path;                          (* Path.home() *)
  exists_ : Path -> bool;               (* Path.exists() *)
  resolve : Path -> Path;               (* Path.resolve() *)
  observer_quiesces : bool
}.

(* ===================================================================== *)
(** ** The notification backend: watchdog observers                       *)
(* ===================================================================== *)

(** [FileEventHandler] state: the arguments line 174 hands to
    [PatternMatchingEventHandler.__init__]. [parent_log] is the owning
    tracker and is passed explicitly where the handler reads it. *)
Record FileEventHandler : Type := mkHandler {
  patterns : list string;
  ignore_directories : bool
}.

Module Backend.

Inductive ObserverClass : Type :=
| PollingObserver (timeout : nat)
| Observer                 (* watchdog's native observer *)
| Supplied.                (* an observer the caller built *)

Record Watch : Type := mkWatch {
  watch_handler : option FileEventHandler;
  watch_dir : Path;
  watch_recursive : bool
}.

(** An observer object. [quiesces] is the backend's behaviour: whether
    its thread has ended when [join] returns after [stop]. *)
Record ObserverObj : Type := mkObserver {
  cls : ObserverClass;
  started : bool;
  stopping : bool;
  alive : bool;
  quiesces : bool;
  watches : list Watch
}.

(** The calls the tracker makes, as they appear in the trace. *)
Inductive Call : Type :=
| CallFindLogfile (r : result Path)
| CallPrint (s : string)
| CallNewObserver (o : nat) (c : ObserverClass)
| CallSchedule (o : nat) (h : option FileEventHandler) (dir : Path) (recursive : bool)
| CallStart (o : nat)
| CallStop (o : nat)
| CallJoin (o : nat)
| CallIsAlive (o : nat) (r : bool).

(** The object store (an observer is named by its index) and the trace:
    every call in order, each with the store as the call left it. *)
Record World : Type := mkWorld {
  store : list ObserverObj;
  trace : list (Call * list ObserverObj)
}.

Definition log (c : Call) : M World unit :=
  modify (fun w => {| store := store w; trace := trace w ++ [(c, store w)] |}).

Definition set_store (s : list ObserverObj) : M World unit :=
  modify (fun w => {| store := s; trace := trace w |}).

(** Dereference an observer; Python cannot hold a dangling reference,
    so the model raises where one would be needed. *)
Definition deref (o : nat) : M World ObserverObj :=
  fun w => match store w !! o with
           | Some ob => (Ok ob, w)
           | None => (Raise ReferenceError, w)
           end.

Definition put (o : nat) (ob : ObserverObj) : M World unit :=
  modify (fun w => {| store := <[o := ob]> (store w); trace := trace w |}).

Definition fresh_observer (c : ObserverClass) (q : bool) : ObserverObj :=
  {| cls := c; started := false; stopping := false;
     alive := false; quiesces := q; watches := [] |}.

(** [PollingObserver(timeout=...)] / [Observer()] *)
Definition new_observer (c : ObserverClass) (q : bool) : M World nat :=
  fun w =>
    let o := length (store w) in
    let ob := fresh_observer c q in
    (set_store (store w ++ [ob]) ;; log (CallNewObserver o c) ;; ret o) w.

(** What each call does to the object it is made on. *)
Definition obj_schedule (wt : Watch) (ob : ObserverObj) : ObserverObj :=
  {| cls := cls ob; started := started ob; stopping := stopping ob;
     alive := alive ob; quiesces := quiesces ob;
     watches := watches ob ++ [wt] |}.

Definition obj_start (ob : ObserverObj) : ObserverObj :=
  {| cls := cls ob; started := true; stopping := stopping ob;
     alive := true; quiesces := quiesces ob; watches := watches ob |}.

Definition obj_stop (ob : ObserverObj) : ObserverObj :=
  {| cls := cls ob; started := started ob; stopping := true;
     alive := alive ob; quiesces := quiesces ob; watches := watches ob |}.

Definition obj_join (ob : ObserverObj) : ObserverObj :=
  {| cls := cls ob; started := started ob; stopping := stopping ob;
     alive := alive ob && negb (stopping ob && quiesces ob);
     quiesces := quiesces ob; watches := watches ob |}.

(** [observer.schedule(handler, dir, recursive=...)] *)
Definition schedule (o : nat) (h : option FileEventHandler) (dir : Path)
    (recursive : bool) : M World unit :=
  ob <- deref o ;;
  put o (obj_schedule (mkWatch h dir recursive) ob) ;;
  log (CallSchedule o h dir recursive).

(** [observer.start()]: a thread starts once. *)
Definition start (o : nat) : M World unit :=
  ob <- deref o ;;
  if started ob then log (CallStart o) ;; raise ThreadStartedTwice
  else put o (obj_start ob) ;; log (CallStart o).

(** [observer.stop()]: asks the thread to end. *)
Definition stop (o : nat) : M World unit :=
  ob <- deref o ;;
  put o (obj_stop ob) ;;
  log (CallStop o).

(** [observer.join()]: returns once the thread has ended, or, for a
    backend that does not quiesce, with the thread still running. The
    source never joins an observer it has not stopped first. *)
Definition join (o : nat) : M World unit :=
  ob <- deref o ;;
  if negb (started ob) then log (CallJoin o) ;; raise ThreadJoinedUnstarted
  else put o (obj_join ob) ;; log (CallJoin o).

(** [observer.is_alive()] *)
Definition is_alive (o : nat) : M World bool :=
  ob <- deref o ;;
  log (CallIsAlive o (alive ob)) ;;
  ret (alive ob).

(** The number of active watch handles in a store. *)
Definition active_handles (s : list ObserverObj) : nat :=
  length (List.filter alive s).

End Backend.

Import Backend.

(* ===================================================================== *)
(** ** ArenaLog and FileEventHandler                                      *)
(* ===================================================================== *)

Module Arena.

(** The attributes of an [ArenaLog] instance, in the order [__init__]
    assigns them. [observer] is a reference into the store. *)
Record ArenaLog : Type := mkArenaLog {
  path : Path;
  observer : nat;
  event_handler : option FileEventHandler;
  follow_current : bool
}.

(** The state a method runs in: the instance and the world around it. *)
Record St : Type := mkSt { self : ArenaLog; world : World }.

Definition liftW {A} (m : M World A) : M St A :=
  fun st => let (r, w) := m (world st) in (r, {| self := self st; world := w |}).

Definition set_path (p : Path) : M St unit :=
  modify (fun st =>
    {| self := {| path := p; observer := observer (self st);
                  event_handler := event_handler (self st);
                  follow_current := follow_current (self st) |};
       world := world st |}).

Definition set_observer (o : nat) : M St unit :=
  modify (fun st =>
    {| self := {| path := path (self st); observer := o;
                  event_handler := event_handler (self st);
                  follow_current := follow_current (self st) |};
       world := world st |}).

Definition set_event_handler (h : option FileEventHandler) : M St unit :=
  modify (fun st =>
    {| self := {| path := path (self st); observer := observer (self st);
                  event_handler := h;
                  follow_current := follow_current (self st) |};
       world := world st |}).

(** *** [find_logfile] (lines 76-108) *)

(** The local [appdata_locallow]: from [os.environ["appdata"]], or on
    [KeyError] from the home directory. *)
Definition appdata_locallow (env : Env) : Path :=
  match environ env "appdata" with
  | Some v =>
      let appdata_roaming := Path_of_str v in
      parent appdata_roaming // "LocalLow"
  | None => home env // "AppData" // "LocalLow"
  end.

(** The local [logfile_path]. *)
Definition logfile_path (env : Env) : Path :=
  appdata_locallow env
    // COMPANY_SUBFOLDER_NAME
    // APPLICATION_SUBFOLDER_NAME
    // CURRENT_LOGFILE_NAME.

Definition find_logfile (env : Env) : result Path :=
  if String.eqb (system env) WINDOWS_PLATFORM_IDENTIFIER then
    if negb (exists_ env (appdata_locallow env)) then
      Raise NO_LOGFILE_FOUND_EXCEPTION
    else if negb (exists_ env (logfile_path env)) then
      Raise NO_LOGFILE_FOUND_EXCEPTION
    else Ok (resolve env (logfile_path env))
  else Raise (NotImplementedError (system env)).

(** A call of [self.find_logfile()], recorded in the trace. *)
Definition call_find_logfile (env : Env) : M World Path :=
  log (CallFindLogfile (find_logfile env)) ;;
  match find_logfile env with
  | Ok p => ret p
  | Raise e => raise e
  end.

(** *** [get_watchdog_observer] (lines 110-120) *)
Definition get_watchdog_observer (env : Env) : M World nat :=
  if String.eqb (system env) WINDOWS_PLATFORM_IDENTIFIER then
    new_observer (PollingObserver DEFAULT_POLLING_OBSERVER_INTERVAL)
                 (observer_quiesces env)
  else new_observer Observer (observer_quiesces env).

(** *** [FileEventHandler.__init__] (lines 173-182) *)
Definition FileEventHandler_init (parent_log_path : Path) : FileEventHandler :=
  {| patterns := [CURRENT_LOGFILE_NAME; PREVIOUS_LOGFILE_NAME;
                  name parent_log_path];
     ignore_directories := true |}.

(** *** [ArenaLog.__init__] (lines 46-74) *)

(** The [path] argument: [None], a string, a [Path], or an object of
    another type (of which only its truth value matters). *)
Inductive PathArg : Type :=
| ArgNone
| ArgStr (s : string)
| ArgPath (p : Path)
| ArgOther (truth : bool).

(** Python truth value: [None] and [""] are false, a [Path] is true. *)
Definition truthy (a : PathArg) : bool :=
  match a with
  | ArgNone => false
  | ArgStr s => negb (String.eqb s "")
  | ArgPath _ => true
  | ArgOther b => b
  end.

Definition init (env : Env) (path_arg : PathArg) (observer_arg : option nat)
    (follow : bool) : M World ArenaLog :=
  p0 <- (if negb (truthy path_arg)
         then (p <- call_find_logfile env ;; ret (ArgPath p))
         else ret path_arg) ;;
  let p1 := match p0 with
            | ArgStr s => ArgPath (Path_of_str s)
            | _ => p0
            end in
  p2 <- match p1 with
        | ArgPath p => ret (resolve env p)
        | _ => raise TypeError
        end ;;
  (if negb (exists_ env p2) then raise ValueError else ret tt) ;;
  o <- match observer_arg with
       | None => get_watchdog_observer env
       | Some o => ret o
       end ;;
  let h := FileEventHandler_init p2 in
  schedule o (Some h) (parent p2) false ;;
  start o ;;
  ret {| path := p2; observer := o; event_handler := Some h;
         follow_current := follow |}.

(** *** [handle_log_deleted] (lines 145-156) *)
Definition handle_log_deleted : M St unit :=
  o <- gets (fun st => observer (self st)) ;;
  liftW (stop o) ;;
  liftW (join o) ;;
  a <- liftW (is_alive o) ;;
  if a : bool then raise UNABLE_TO_STOP_OBSERVER_EXCEPTION
  else set_event_handler None.

(** *** [handle_log_moved] (lines 122-143) *)
Definition handle_log_moved (env : Env) : M St unit :=
  fc <- gets (fun st => follow_current (self st)) ;;
  if fc : bool then
    p <- liftW (call_find_logfile env) ;;
    set_path p ;;
    liftW (log (CallPrint ("New path: " ++ str p))) ;;
    o <- gets (fun st => observer (self st)) ;;
    liftW (stop o) ;;
    liftW (join o) ;;
    a <- liftW (is_alive o) ;;
    if a : bool then raise UNABLE_TO_STOP_OBSERVER_EXCEPTION
    else
      o' <- liftW (get_watchdog_observer env) ;;
      set_observer o' ;;
      h <- gets (fun st => event_handler (self st)) ;;
      dir <- gets (fun st => parent (path (self st))) ;;
      liftW (schedule o' h dir false) ;;
      liftW (start o')
  else handle_log_deleted.

(** *** [__del__] (lines 158-162) *)
Definition del : M St unit :=
  o <- gets (fun st => observer (self st)) ;;
  liftW (stop o) ;;
  liftW (join o) ;;
  a <- liftW (is_alive o) ;;
  if a : bool then raise UNABLE_TO_STOP_OBSERVER_EXCEPTION
  else ret tt.

(** *** Events and [FileEventHandler.dispatch] (lines 184-207) *)

Inductive EventType : Type :=
| EVENT_TYPE_MOVED
| EVENT_TYPE_DELETED
| EVENT_TYPE_CREATED
| EVENT_TYPE_MODIFIED.

(** A watchdog [FileSystemEvent]; [dest_path] is present on moves. *)
Record FileSystemEvent : Type := mkEvent {
  event_type : EventType;
  src_path : string;
  dest_path : option string;
  is_directory : bool
}.

(** The paths of an event that the pattern match looks at: the
    destination when there is one, and the source unless empty. *)
Definition event_paths (event : FileSystemEvent) : list string :=
  match dest_path event with Some d => [d] | None => [] end
  ++ (if String.eqb (src_path event) "" then [] else [src_path event]).

Section Handler.

(** [fnmatch name pattern]: Python's shell-style match of one path
    component, which is string equality on a pattern without
    wildcards. *)
Variable fnmatch : string -> string -> bool.

(** [PurePath(p).match(pattern)] for a one-component pattern: the
    last component of the path is matched. *)
Definition path_match (pattern p : string) : bool :=
  match parts (Path_of_str p) with
  | [] => false
  | _ => fnmatch (name (Path_of_str p)) pattern
  end.

(** watchdog's [PatternMatchingEventHandler.dispatch], up to the
    call of the event methods: directories are ignored on request,
    and one of the event's paths has to match one of the patterns. *)
Definition PatternMatchingEventHandler_dispatch
    (h : FileEventHandler) (event : FileSystemEvent) : bool :=
  if ignore_directories h && is_directory event then false
  else
    existsb (fun p => existsb (fun pat => path_match pat p) (patterns h))
            (event_paths event).

(** Whether [dispatch] hands the event on to the event methods. *)
Definition delivers (h : FileEventHandler) (parent_log : ArenaLog)
    (event : FileSystemEvent) : bool :=
  if is_directory event then false
  else if negb (String.eqb (src_path event) "")
          && negb (String.eqb (src_path event) (str (path parent_log)))
  then false
  else PatternMatchingEventHandler_dispatch h event.

(** [print(event)]; of the text only the source path is kept. *)
Definition on_any_event (event : FileSystemEvent) : M St unit :=
  liftW (log (CallPrint (src_path event))).

Definition on_moved (env : Env) (event : FileSystemEvent) : M St unit :=
  handle_log_moved env.

Definition on_deleted (event : FileSystemEvent) : M St unit :=
  handle_log_deleted.

(** [FileEventHandler.dispatch]: the filter, then watchdog's
    [FileSystemEventHandler.dispatch] ([on_any_event], then the
    method of the event's type). *)
Definition dispatch (env : Env) (h : FileEventHandler)
    (event : FileSystemEvent) : M St unit :=
  parent_log <- gets self ;;
  if delivers h parent_log event then
    on_any_event event ;;
    match event_type event with
    | EVENT_TYPE_MOVED => on_moved env event
    | EVENT_TYPE_DELETED => on_deleted event
    | _ => ret tt
    end
  else ret tt.

End Handler.

(** *** The tracker as a state machine *)

Inductive TrackerState : Type := Watching | Stopped.

(** The observer the tracker holds is alive in [Watching], and only
    there. *)
Definition observer_alive (st : St) : bool :=
  match store (world st) !! observer (self st) with
  | Some ob => alive ob
  | None => false
  end.

Definition state (st : St) : TrackerState :=
  if observer_alive st then Watching else Stopped.

(** The operations on a constructed tracker. *)
Inductive Op : Type :=
| OpMoved (env : Env)
| OpDeleted
| OpDel
| OpDispatch (env : Env) (h : FileEventHandler) (event : FileSystemEvent).

Definition run_op (fnmatch : string -> string -> bool) (op : Op) : M St unit :=
  match op with
  | OpMoved env => handle_log_moved env
  | OpDeleted => handle_log_deleted
  | OpDel => del
  | OpDispatch env h event => dispatch fnmatch env h event
  end.

(** A run of operations; one that raises leaves the state it reached
    and the next one starts from it. *)
Definition run_ops (fnmatch : string -> string -> bool) (ops : list Op) (st : St) : St :=
  fold_left (fun s op => snd (run_op fnmatch op s)) ops st.

(** The calls an operation added to the trace. *)
Definition calls_since (w w' : World) : list Call :=
  map fst (drop (length (trace w)) (trace w')).

End Arena.

Import Arena.

(* ===================================================================== *)
(** ** The specification's wording of the event filter                    *)
(* ===================================================================== *)

(** The filter as the specification words it (section 4.3): not a
    directory event, and the source path is the tracked path or its
    basename is one of the two well-known names. Kept apart from
    [delivers], which is the code. *)
Definition spec_delivers (parent_log : ArenaLog) (event : FileSystemEvent) : bool :=
  negb (is_directory event)
  && (String.eqb (src_path event) (str (path parent_log))
      || String.eqb (name (Path_of_str (src_path event))) CURRENT_LOGFILE_NAME
      || String.eqb (name (Path_of_str (src_path event))) PREVIOUS_LOGFILE_NAME).

(* ===================================================================== *)
(** ** Auxiliary definitions for the proofs                               *)
(* ===================================================================== *)

(** The end of [__init__], from line 65 on. *)
Definition attach (env : Env) (observer_arg : option nat) (p : Path)
    (follow : bool) : M World ArenaLog :=
  o <- match observer_arg with
       | None => get_watchdog_observer env
       | Some o => ret o
       end ;;
  let h := FileEventHandler_init p in
  schedule o (Some h) (parent p) false ;;
  start o ;;
  ret {| path := p; observer := o; event_handler := Some h;
         follow_current := follow |}.

(** [__init__] from the existence check of line 62 on. *)
Definition checked (env : Env) (observer_arg : option nat) (p : Path)
    (follow : bool) : M World ArenaLog :=
  fun w => if exists_ env p then attach env observer_arg p follow w
           else (Raise ValueError, w).

(** Whether the observer the tracker holds ends when stopped and joined. *)
Definition backend_quiesces (st : St) : bool :=
  match store (world st) !! observer (self st) with
  | Some ob => quiesces ob
  | None => false
  end.

(** What [is_alive] answers after [stop] and [join]. *)
Definition still_active (st : St) : bool :=
  observer_alive st && negb (backend_quiesces st).

(** The three calls of a shutdown. *)
Definition shutdown_calls (o : nat) (answer : bool) : list Call :=
  [CallStop o; CallJoin o; CallIsAlive o answer].

(** The calls of a rotation that goes through. *)
Definition rotation_calls (o n : nat) (c : ObserverClass) (p : Path)
    (h : option FileEventHandler) : list Call :=
  [CallFindLogfile (Ok p); CallPrint ("New path: " ++ str p)]
  ++ shutdown_calls o false
  ++ [CallNewObserver n c; CallSchedule n h (parent p) false; CallStart n].

Definition is_new_observer (c : Call) : bool :=
  match c with CallNewObserver _ _ => true | _ => false end.

(** The stores in which an operation left a newly built observer. *)
Definition snapshots_at_new (w w' : World) : list (list ObserverObj) :=
  map snd (List.filter (fun cs => is_new_observer (fst cs))
                       (drop (length (trace w)) (trace w'))).

(* ===================================================================== *)
(** ** Concrete scenarios                                                 *)
(* ===================================================================== *)

Module Scenario.

Definition tmp_player : Path := mkPath "/" ["tmp"; "Player.log"].

Definition locallow : Path := mkPath "/" ["Users"; "u"; "AppData"; "LocalLow"].

Definition default_player : Path :=
  mkPath "/" ["Users"; "u"; "AppData"; "LocalLow";
              "Wizards Of The Coast"; "MTGA"; "Player.log"].

Definition same_path (p q : Path) : bool := String.eqb (str p) (str q).

(** A file system holding [/tmp/Player.log] and the log at its default
    location. *)
Definition fs_both (p : Path) : bool :=
  same_path p tmp_player || same_path p locallow || same_path p default_player.

(** A file system holding [/tmp/Player.log] only. *)
Definition fs_tmp (p : Path) : bool := same_path p tmp_player.

Definition appdata_set (k : string) : option string :=
  if String.eqb k "appdata" then Some "/Users/u/AppData/Roaming" else None.

Definition windows : Env :=
  {| system := "Windows"; environ := appdata_set;
     home := mkPath "/" ["Users"; "u"]; exists_ := fs_both;
     resolve := fun p => p; observer_quiesces := true |}.

(** Windows without the [LocalLow] tree. *)
Definition windows_bare : Env :=
  {| system := "Windows"; environ := fun _ => None;
     home := mkPath "/" ["Users"; "u"]; exists_ := fs_tmp;
     resolve := fun p => p; observer_quiesces := true |}.

Definition linux : Env :=
  {| system := "Linux"; environ := fun _ => None;
     home := mkPath "/" ["home"; "u"]; exists_ := fs_tmp;
     resolve := fun p => p; observer_quiesces := true |}.

Definition empty_world : World := {| store := []; trace := [] |}.


(** The tracker a successful construction returns, with its world. *)
Definition constructed (r : result ArenaLog * World) : option St :=
  match r with
  | (Ok t, w) => Some (mkSt t w)
  | (Raise _, _) => None
  end.

Definition or_default (o : option St) : St :=
  match o with
  | Some st => st
  | None => mkSt (mkArenaLog tmp_player 0 None true) empty_world
  end.

(** [ArenaLog("/tmp/Player.log")] on Windows, [follow_current] as given. *)
Definition tracker_tmp (follow : bool) : St :=
  or_default (constructed
    (init windows (ArgStr "/tmp/Player.log") None follow empty_world)).


(** The tracker after [handle_log_deleted]. *)
Definition tracker_stopped : St := snd (handle_log_deleted (tracker_tmp true)).

Definition prev_created : FileSystemEvent :=
  mkEvent EVENT_TYPE_CREATED "/tmp/Player-prev.log" None false.

End Scenario.

(* ===================================================================== *)
(** ** Invariants and the worlds the operations lead to                   *)
(* ===================================================================== *)

(** No observer of the store is alive but, possibly, number [k]. *)
Definition only_alive (k : nat) (s : list ObserverObj) : Prop :=
  forall i ob, s !! i = Some ob -> alive ob = true -> i = k.

Definition none_alive (s : list ObserverObj) : Prop :=
  forall i ob, s !! i = Some ob -> alive ob = false.

(** At most one watch handle was active after every call so far. *)
Definition one_at_a_time (tr : list (Call * list ObserverObj)) : Prop :=
  Forall (fun cs => active_handles (snd cs) <= 1) tr.

(** Before a tracker is built no watch is active and nothing was called. *)
Definition initial (w : World) : Prop :=
  trace w = [] /\ none_alive (store w).

(** What holds of a constructed tracker: its observer exists and was
    started, no other observer is alive, and none ever was alongside. *)
Definition tracker_inv (st : St) : Prop :=
  (exists ob, store (world st) !! observer (self st) = Some ob
              /\ started ob = true)
  /\ only_alive (observer (self st)) (store (world st))
  /\ one_at_a_time (trace (world st)).

(** The states a tracker can be in: those a successful construction
    returns, and those any operation leads to from there. *)
Inductive reachable (fnmatch : string -> string -> bool) : St -> Prop :=
| reach_init env path_arg observer_arg follow w0 t w :
    initial w0 ->
    init env path_arg observer_arg follow w0 = (Ok t, w) ->
    reachable fnmatch (mkSt t w)
| reach_step st op :
    reachable fnmatch st ->
    reachable fnmatch (snd (run_op fnmatch op st)).

(** The class of observer [get_watchdog_observer] builds. *)
Definition observer_class (env : Env) : ObserverClass :=
  if String.eqb (system env) WINDOWS_PLATFORM_IDENTIFIER
  then PollingObserver DEFAULT_POLLING_OBSERVER_INTERVAL
  else Observer.

(** An observer after [stop] and [join]. *)
Definition quiesced (ob : ObserverObj) : ObserverObj := obj_join (obj_stop ob).

(** The world after [stop], [join] and [is_alive] on observer [o]. *)
Definition after_stop_join (o : nat) (ob : ObserverObj) (w : World) : World :=
  {| store := <[o := quiesced ob]> (store w);
     trace := trace w
       ++ [(CallStop o, <[o := obj_stop ob]> (store w));
           (CallJoin o, <[o := quiesced ob]> (store w));
           (CallIsAlive o (alive (quiesced ob)), <[o := quiesced ob]> (store w))] |}.

(** The world after a successful [find_logfile] and the [print]. *)
Definition after_resolution (p : Path) (w : World) : World :=
  {| store := store w;
     trace := trace w
       ++ [(CallFindLogfile (Ok p), store w);
           (CallPrint ("New path: " ++ str p), store w)] |}.

(** The world after a new observer is built, scheduled and started. *)
Definition after_restart (c : ObserverClass) (q : bool)
    (h : option FileEventHandler) (dir : Path) (w : World) : World :=
  let n := length (store w) in
  let wt := mkWatch h dir false in
  {| store := store w ++ [obj_start (obj_schedule wt (fresh_observer c q))];
     trace := trace w
       ++ [(CallNewObserver n c, store w ++ [fresh_observer c q]);
           (CallSchedule n h dir false,
            store w ++ [obj_schedule wt (fresh_observer c q)]);
           (CallStart n,
            store w ++ [obj_start (obj_schedule wt (fresh_observer c q))])] |}.

Definition with_path (p : Path) (t : ArenaLog) : ArenaLog :=
  {| path := p; observer := observer t; event_handler := event_handler t;
     follow_current := follow_current t |}.

Definition with_observer (o : nat) (t : ArenaLog) : ArenaLog :=
  {| path := path t; observer := o; event_handler := event_handler t;
     follow_current := follow_current t |}.

Definition with_event_handler (h : option FileEventHandler) (t : ArenaLog) : ArenaLog :=
  {| path := path t; observer := observer t; event_handler := h;
     follow_current := follow_current t |}.

(** Whether a call is one of [stop]. *)
Definition is_stop (c : Call) : bool :=
  match c with CallStop _ => true | _ => false end.




(* ===================================================================== *)
(** ** Further definitions: well-formed paths, events of the scenarios    *)
(* ===================================================================== *)

(** Whether a string holds the separator. *)
Fixpoint has_slash (s : string) : bool :=
  match s with
  | EmptyString => false
  | String a s' => Ascii.eqb a Pathlib.slash || has_slash s'
  end.

(** A component as [pathlib] keeps them: not empty, not [.], without a
    separator. *)
Definition part_ok (x : string) : bool := keep_part x && negb (has_slash x).

(** A path as [pathlib] builds them. *)
Definition wf_path (p : Path) : bool :=
  (String.eqb (anchor p) "" || String.eqb (anchor p) "/"
   || String.eqb (anchor p) "//")
  && forallb part_ok (parts p).

(** The errors the docstring of [ArenaLog] lists for construction. *)
Definition construction_error (env : Env) (e : exn) : Prop :=
  e = TypeError \/ e = ValueError \/ e = NO_LOGFILE_FOUND_EXCEPTION
  \/ e = NotImplementedError (system env).


(** Whether an operation is a Moved handling or may lead to one. *)
Definition may_rotate (op : Op) : bool :=
  match op with
  | OpMoved _ => true
  | OpDispatch _ _ event =>
      match event_type event with EVENT_TYPE_MOVED => true | _ => false end
  | _ => false
  end.

(** The state after [print] of a text: one more entry in the trace. *)
Definition printed (c : Call) (st : St) : St :=
  mkSt (self st)
       {| store := store (world st);
          trace := trace (world st) ++ [(c, store (world st))] |}.

(** The path an explicit, truthy [path] argument stands for. *)
Definition explicit_path (a : PathArg) : option Path :=
  match a with
  | ArgStr s => if String.eqb s "" then None else Some (Path_of_str s)
  | ArgPath p => Some p
  | _ => None
  end.

(** The environment an operation runs in, when it reads one. *)
Definition op_env (op : Op) : option Env :=
  match op with
  | OpMoved env => Some env
  | OpDispatch env _ _ => Some env
  | _ => None
  end.

(** An operation that does not run on Windows. *)
Definition off_windows (op : Op) : Prop :=
  match op_env op with
  | Some env => system env <> WINDOWS_PLATFORM_IDENTIFIER
  | None => True
  end.

(** The environment of an operation that may rotate. *)
Definition rotation_env (op : Op) : option Env :=
  if may_rotate op then op_env op else None.

(** A step that keeps the tracker on its path and observer and builds no
    observer. *)
Definition quiet_step (st st' : St) : Prop :=
  path (self st') = path (self st)
  /\ observer (self st') = observer (self st)
  /\ length (store (world st')) = length (store (world st)).

(** What every operation keeps: the follow flag; the event handler, or
    none; the observers built so far; the path and the observer, unless
    the operation is a rotation in [rot] whose resolver found the new
    path; and it raises the shutdown error or what the resolver of a
    rotation raised. *)
Definition step_ok (rot : option Env) (st : St) (r : result unit) (st' : St) : Prop :=
  follow_current (self st') = follow_current (self st)
  /\ (event_handler (self st') = event_handler (self st)
      \/ event_handler (self st') = None)
  /\ length (store (world st)) <= length (store (world st'))
  /\ (quiet_step st st'
      \/ (follow_current (self st) = true
          /\ exists env p, rot = Some env /\ find_logfile env = Ok p
                           /\ path (self st') = p))
  /\ (forall e, r = Raise e ->
        e = UNABLE_TO_STOP_OBSERVER_EXCEPTION
        \/ (follow_current (self st) = true
            /\ exists env, rot = Some env /\ find_logfile env = Raise e)).

Module Cases.

(** The rotation of the tracked file as watchdog reports it. *)
Definition tracked_moved : FileSystemEvent :=
  mkEvent EVENT_TYPE_MOVED "/tmp/Player.log" (Some "/tmp/Player-prev.log") false.


Definition tracked_modified : FileSystemEvent :=
  mkEvent EVENT_TYPE_MODIFIED "/tmp/Player.log" None false.

Definition other_modified : FileSystemEvent :=
  mkEvent EVENT_TYPE_MODIFIED "/tmp/notes.txt" None false.

Definition dir_deleted : FileSystemEvent :=
  mkEvent EVENT_TYPE_DELETED "/tmp/Player.log" None true.

(** The handler [ArenaLog("/tmp/Player.log")] builds. *)
Definition tmp_handler : FileEventHandler :=
  FileEventHandler_init Scenario.tmp_player.

(** A world in which the caller has built an observer and started it. *)
Definition started_world : World :=
  {| store := [obj_join (obj_stop (obj_start (fresh_observer Supplied true)))];
     trace := [] |}.

(** A world in which the caller has built an observer of their own. *)
Definition supplied_world : World :=
  {| store := [fresh_observer Supplied true]; trace := [] |}.

(** [ArenaLog("/tmp/Player.log", observer=own)] on Linux. *)
Definition tracker_supplied : St :=
  Scenario.or_default (Scenario.constructed
    (init Scenario.linux (ArgStr "/tmp/Player.log") (Some 0) true supplied_world)).

End Cases.

(* ===================================================================== *)
(** ** pathlib on examples                                                *)
(* ===================================================================== *)

Example Path_tmp_player :
  Path_of_str "/tmp/Player.log" = mkPath "/" ["tmp"; "Player.log"].
Proof. reflexivity. Qed.

Example str_tmp_player :
  str (mkPath "/" ["tmp"; "Player.log"]) = "/tmp/Player.log".
Proof. reflexivity. Qed.

Example Path_empty : str (Path_of_str "") = ".".
Proof. reflexivity. Qed.

Example div_locallow :
  parent (Path_of_str "/Users/u/AppData/Roaming") // "LocalLow"
  = Scenario.locallow.
Proof. reflexivity. Qed.

Example name_default_player : name Scenario.default_player = CURRENT_LOGFILE_NAME.
Proof. reflexivity. Qed.

(* ===================================================================== *)
(** ** Path resolution: [find_logfile]                                    *)
(* ===================================================================== *)

Lemma find_logfile_windows (env : Env) :
  system env = WINDOWS_PLATFORM_IDENTIFIER ->
  find_logfile env =
    if exists_ env (appdata_locallow env) && exists_ env (logfile_path env)
    then Ok (resolve env (logfile_path env))
    else Raise NO_LOGFILE_FOUND_EXCEPTION.
Proof.
  intros Hsys. unfold find_logfile. rewrite Hsys, String.eqb_refl.
  destruct (exists_ env (appdata_locallow env)); cbn [negb andb]; [|reflexivity].
  destruct (exists_ env (logfile_path env)); reflexivity.
Qed.

Lemma find_logfile_other (env : Env) :
  system env <> WINDOWS_PLATFORM_IDENTIFIER ->
  find_logfile env = Raise (NotImplementedError (system env)).
Proof.
  intros Hsys. unfold find_logfile.
  destruct (String.eqb_spec (system env) WINDOWS_PLATFORM_IDENTIFIER); congruence.
Qed.



(* ===================================================================== *)
(** ** Construction with an empty path string                             *)
(* ===================================================================== *)

(** C10: an empty string as the explicit path is falsy, so construction
    takes the automatic resolution, step for step as with no path at
    all; when [find_logfile] raises, construction raises that error
    (not-found or unsupported platform), not [TypeError] or
    [ValueError]. *)
Theorem C10_empty_path_is_no_path (env : Env) (observer_arg : option nat)
    (follow : bool) (w : World) :
  init env (ArgStr "") observer_arg follow w
    = init env ArgNone observer_arg follow w
  /\ (forall e, find_logfile env = Raise e ->
        fst (init env (ArgStr "") observer_arg follow w) = Raise e
        /\ (e = NO_LOGFILE_FOUND_EXCEPTION \/ e = NotImplementedError (system env))).
Proof.
  split; [reflexivity|].
  intros e He. split.
  - unfold init, bind, call_find_logfile, bind, log, modify. cbn.
    rewrite He. reflexivity.
  - destruct (String.eqb_spec (system env) WINDOWS_PLATFORM_IDENTIFIER) as [Hs|Hs].
    + left. rewrite (find_logfile_windows env Hs) in He.
      destruct (_ && _); congruence.
    + right. rewrite (find_logfile_other env Hs) in He. congruence.
Qed.

Lemma C10_witness :
  fst (init Scenario.linux (ArgStr "") None true Scenario.empty_world)
    = Raise (NotImplementedError "Linux")
  /\ fst (init Scenario.linux (ArgStr "/nowhere") None true Scenario.empty_world)
    = Raise ValueError.
Proof.
  split.
  - apply (proj2 (C10_empty_path_is_no_path Scenario.linux None true
                    Scenario.empty_world)).
    reflexivity.
  - reflexivity.
Defined.

(* ===================================================================== *)
(** ** The event filter                                                   *)
(* ===================================================================== *)

Lemma pattern_dispatch_files (fnmatch : string -> string -> bool)
    (h : FileEventHandler) (event : FileSystemEvent) :
  is_directory event = false ->
  PatternMatchingEventHandler_dispatch fnmatch h event
    = existsb (fun p => existsb (fun pat => path_match fnmatch pat p) (patterns h))
              (event_paths event).
Proof.
  intros Hd. unfold PatternMatchingEventHandler_dispatch.
  rewrite Hd, andb_false_r. reflexivity.
Qed.

(** C1, as the code has it: an event is delivered exactly when it is not
    a directory event, its source path is empty or is the tracked path,
    and one of its paths matches one of the handler's patterns. An event
    for [Player.log] or [Player-prev.log] whose source path is not the
    tracked path is dropped. *)
Theorem C1_delivers_iff (fnmatch : string -> string -> bool)
    (h : FileEventHandler) (parent_log : ArenaLog) (event : FileSystemEvent) :
  delivers fnmatch h parent_log event = true
  <-> is_directory event = false
      /\ (src_path event = "" \/ src_path event = str (path parent_log))
      /\ exists p pat, In p (event_paths event) /\ In pat (patterns h)
                       /\ path_match fnmatch pat p = true.
Proof.
  unfold delivers.
  destruct (is_directory event) eqn:Hd.
  { split; [discriminate|]. intros [H _]. discriminate. }
  rewrite (pattern_dispatch_files fnmatch h event Hd).
  assert (Hex : existsb (fun p => existsb (fun pat => path_match fnmatch pat p)
                                          (patterns h)) (event_paths event) = true
                <-> exists p pat, In p (event_paths event) /\ In pat (patterns h)
                                  /\ path_match fnmatch pat p = true).
  { rewrite existsb_exists. split.
    - intros (p & Hp & Hm). apply existsb_exists in Hm as (pat & Hpat & Hm).
      exists p, pat. auto.
    - intros (p & pat & Hp & Hpat & Hm). exists p. split; [assumption|].
      apply existsb_exists. exists pat. auto. }
  destruct (String.eqb_spec (src_path event) "") as [He|He];
    destruct (String.eqb_spec (src_path event) (str (path parent_log))) as [Ht|Ht];
    cbn [negb andb]; rewrite ?Hex; try tauto.
  split; [discriminate|]. intros (_ & [H|H] & _); contradiction.
Qed.

(** The filter of the specification delivers the creation of
    [/tmp/Player-prev.log] while [/tmp/Player.log] is tracked; the code
    drops it. *)
Lemma C1_counterexample :
  event_handler (self (Scenario.tracker_tmp true))
    = Some (FileEventHandler_init Scenario.tmp_player)
  /\ path (self (Scenario.tracker_tmp true)) = Scenario.tmp_player
  /\ spec_delivers (self (Scenario.tracker_tmp true)) Scenario.prev_created = true
  /\ delivers String.eqb (FileEventHandler_init Scenario.tmp_player)
       (self (Scenario.tracker_tmp true)) Scenario.prev_created = false.
Proof. repeat split. Qed.


(* ===================================================================== *)
(** ** Evaluation of the methods                                          *)
(* ===================================================================== *)

Lemma calls_since_app (w : World) (s : list ObserverObj)
    (ext : list (Call * list ObserverObj)) :
  calls_since w {| store := s; trace := trace w ++ ext |} = map fst ext.
Proof. unfold calls_since. cbn. rewrite drop_app_length. reflexivity. Qed.

Lemma get_watchdog_observer_eq (env : Env) :
  get_watchdog_observer env
    = new_observer (observer_class env) (observer_quiesces env).
Proof.
  unfold get_watchdog_observer, observer_class.
  destruct (String.eqb _ _); reflexivity.
Qed.

Lemma insert_snoc (s : list ObserverObj) (x y : ObserverObj) :
  <[length s := y]> (s ++ [x]) = s ++ [y].
Proof. induction s as [|a s IH]; cbn; [reflexivity|]. f_equal. exact IH. Qed.

Lemma lookup_snoc (s : list ObserverObj) (x : ObserverObj) :
  (s ++ [x]) !! length s = Some x.
Proof. induction s as [|a s IH]; cbn; [reflexivity|exact IH]. Qed.

(** [stop], [join], [is_alive] on the observer of a tracker. *)
Lemma stop_join_prefix {A} (k : bool -> M St A) (st : St) (ob : ObserverObj) :
  let o := observer (self st) in
  store (world st) !! o = Some ob ->
  started ob = true ->
  (liftW (stop o) ;; liftW (join o) ;; a <- liftW (is_alive o) ;; k a) st
    = k (alive (quiesced ob)) (mkSt (self st) (after_stop_join o ob (world st))).
Proof.
  intros o Hob Hst.
  assert (Hlt : o < length (store (world st))) by (eapply lookup_lt_Some; eauto).
  unfold bind, liftW, stop, join, is_alive, bind, deref, put, log, modify.
  cbn. rewrite Hob. cbn.
  rewrite list_lookup_insert_eq by assumption. cbn. rewrite Hst. cbn.
  rewrite list_insert_insert_eq.
  rewrite list_lookup_insert_eq by assumption. cbn.
  unfold after_stop_join, quiesced. cbn.
  rewrite <- !app_assoc. reflexivity.
Qed.

Lemma handle_log_deleted_run (st : St) (ob : ObserverObj) :
  store (world st) !! observer (self st) = Some ob ->
  started ob = true ->
  handle_log_deleted st =
    let w := after_stop_join (observer (self st)) ob (world st) in
    if alive (quiesced ob)
    then (Raise UNABLE_TO_STOP_OBSERVER_EXCEPTION, mkSt (self st) w)
    else (Ok tt, mkSt (with_event_handler None (self st)) w).
Proof.
  intros Hob Hst. unfold handle_log_deleted.
  unfold bind at 1. unfold gets at 1.
  rewrite (stop_join_prefix _ st ob Hob Hst).
  destruct (alive (quiesced ob)); reflexivity.
Qed.

Lemma del_run (st : St) (ob : ObserverObj) :
  store (world st) !! observer (self st) = Some ob ->
  started ob = true ->
  del st =
    let w := after_stop_join (observer (self st)) ob (world st) in
    if alive (quiesced ob)
    then (Raise UNABLE_TO_STOP_OBSERVER_EXCEPTION, mkSt (self st) w)
    else (Ok tt, mkSt (self st) w).
Proof.
  intros Hob Hst. unfold del.
  unfold bind at 1. unfold gets at 1.
  rewrite (stop_join_prefix _ st ob Hob Hst).
  destruct (alive (quiesced ob)); reflexivity.
Qed.

Lemma handle_log_moved_no_follow (env : Env) (st : St) :
  follow_current (self st) = false ->
  handle_log_moved env st = handle_log_deleted st.
Proof.
  intros Hfc. unfold handle_log_moved. unfold bind at 1. unfold gets at 1.
  rewrite Hfc. reflexivity.
Qed.

Lemma handle_log_moved_raise (env : Env) (st : St) (e : exn) :
  follow_current (self st) = true ->
  find_logfile env = Raise e ->
  handle_log_moved env st =
    (Raise e,
     mkSt (self st)
          {| store := store (world st);
             trace := trace (world st)
                      ++ [(CallFindLogfile (Raise e), store (world st))] |}).
Proof.
  intros Hfc He. unfold handle_log_moved, bind, gets. rewrite Hfc.
  unfold liftW, call_find_logfile, bind, log, modify. rewrite He. reflexivity.
Qed.

(** The restart of [handle_log_moved]: a new observer is built, becomes
    the tracker's, is scheduled on the parent directory and started. *)
Lemma restart_run (env : Env) (st : St) :
  (o' <- liftW (get_watchdog_observer env) ;;
   set_observer o' ;;
   h <- gets (fun st => event_handler (self st)) ;;
   dir <- gets (fun st => parent (path (self st))) ;;
   liftW (schedule o' h dir false) ;;
   liftW (start o')) st
  = (Ok tt,
     mkSt (with_observer (length (store (world st))) (self st))
          (after_restart (observer_class env) (observer_quiesces env)
             (event_handler (self st)) (parent (path (self st))) (world st))).
Proof.
  rewrite get_watchdog_observer_eq.
  unfold bind, liftW, new_observer, set_observer, gets, schedule, start,
    bind, deref, put, log, set_store, modify, ret.
  cbn. rewrite lookup_snoc. cbn.
  rewrite insert_snoc, lookup_snoc. cbn. rewrite insert_snoc.
  unfold after_restart, with_observer. cbn.
  rewrite <- !app_assoc. reflexivity.
Qed.

Lemma handle_log_moved_run (env : Env) (st : St) (ob : ObserverObj) (p : Path) :
  follow_current (self st) = true ->
  find_logfile env = Ok p ->
  store (world st) !! observer (self st) = Some ob ->
  started ob = true ->
  handle_log_moved env st =
    let w := after_stop_join (observer (self st)) ob
               (after_resolution p (world st)) in
    if alive (quiesced ob)
    then (Raise UNABLE_TO_STOP_OBSERVER_EXCEPTION, mkSt (with_path p (self st)) w)
    else (Ok tt,
          mkSt (with_observer (length (store (world st))) (with_path p (self st)))
               (after_restart (observer_class env) (observer_quiesces env)
                  (event_handler (self st)) (parent p) w)).
Proof.
  intros Hfc Hp Hob Hst. unfold handle_log_moved.
  unfold bind at 1. unfold gets at 1. rewrite Hfc.
  unfold bind at 1. unfold liftW at 1, call_find_logfile.
  unfold bind at 1. unfold log at 1, modify at 1. rewrite Hp. unfold ret at 1.
  unfold bind at 1. unfold set_path at 1, modify at 1.
  unfold bind at 1. unfold liftW at 1, log at 1, modify at 1.
  unfold bind at 1. unfold gets at 1.
  cbn [self world observer].
  match goal with
  | |- context [mkSt ?t ?w] =>
      pose proof (stop_join_prefix
        (fun a : bool =>
           if a then raise UNABLE_TO_STOP_OBSERVER_EXCEPTION
           else (o' <- liftW (get_watchdog_observer env) ;;
                 set_observer o' ;;
                 h <- gets (fun st => event_handler (self st)) ;;
                 dir <- gets (fun st => parent (path (self st))) ;;
                 liftW (schedule o' h dir false) ;;
                 liftW (start o')))
        (mkSt t w) ob) as Hpre
  end.
  cbn [self world observer store] in Hpre.
  specialize (Hpre Hob Hst).
  cbn zeta.
  etransitivity; [exact Hpre|].
  destruct (alive (quiesced ob)).
  - unfold raise, after_stop_join, after_resolution, with_path.
    cbn [store trace]. rewrite <- !app_assoc. reflexivity.
  - rewrite restart_run.
    unfold after_restart, after_stop_join, after_resolution, with_path,
      with_observer.
    cbn [store trace self world path observer event_handler follow_current].
    rewrite length_insert, <- !app_assoc. reflexivity.
Qed.

(* ===================================================================== *)
(** ** Counting the active watch handles                                  *)
(* ===================================================================== *)

Lemma active_handles_cons (a : ObserverObj) (s : list ObserverObj) :
  active_handles (a :: s) = (if alive a then 1 else 0) + active_handles s.
Proof. unfold active_handles. cbn. destruct (alive a); reflexivity. Qed.

Lemma active_handles_snoc (s : list ObserverObj) (x : ObserverObj) :
  active_handles (s ++ [x]) = active_handles s + (if alive x then 1 else 0).
Proof.
  induction s as [|a s IH]; [cbn; destruct (alive x); reflexivity|].
  cbn [app]. rewrite !active_handles_cons, IH. lia.
Qed.

Lemma none_alive_tail (a : ObserverObj) (s : list ObserverObj) :
  none_alive (a :: s) -> none_alive s.
Proof. intros H i ob Hi. exact (H (S i) ob Hi). Qed.

Lemma none_alive_count (s : list ObserverObj) :
  none_alive s -> active_handles s = 0.
Proof.
  induction s as [|a s IH]; intros H; [reflexivity|].
  rewrite active_handles_cons, (H 0 a eq_refl), IH; [reflexivity|].
  eapply none_alive_tail; eauto.
Qed.

Lemma only_alive_count (k : nat) (s : list ObserverObj) :
  only_alive k s -> active_handles s <= 1.
Proof.
  revert k. induction s as [|a s IH]; intros k H; [cbn; lia|].
  rewrite active_handles_cons. destruct k as [|k].
  - rewrite none_alive_count; [destruct (alive a); lia|].
    intros i ob Hi. destruct (alive ob) eqn:Ha; [|reflexivity].
    discriminate (H (S i) ob Hi Ha).
  - destruct (alive a) eqn:Ha; [discriminate (H 0 a eq_refl Ha)|].
    cbn. apply (IH k). intros i ob Hi Hal.
    pose proof (H (S i) ob Hi Hal). lia.
Qed.

Lemma only_alive_exactly (k : nat) (s : list ObserverObj) (ob : ObserverObj) :
  only_alive k s -> s !! k = Some ob -> alive ob = true -> active_handles s = 1.
Proof.
  revert k. induction s as [|a s IH]; intros k H Hk Ha; [discriminate|].
  rewrite active_handles_cons. destruct k as [|k].
  - cbn in Hk. injection Hk as ->. rewrite Ha.
    rewrite none_alive_count; [reflexivity|].
    intros i ob' Hi. destruct (alive ob') eqn:Ha'; [|reflexivity].
    discriminate (H (S i) ob' Hi Ha').
  - destruct (alive a) eqn:Ha0; [discriminate (H 0 a eq_refl Ha0)|].
    cbn. apply (IH k); [|exact Hk|exact Ha]. intros i ob' Hi Hal.
    pose proof (H (S i) ob' Hi Hal). lia.
Qed.

Lemma none_only (k : nat) (s : list ObserverObj) :
  none_alive s -> only_alive k s.
Proof. intros H i ob Hi Ha. rewrite (H i ob Hi) in Ha. discriminate. Qed.

Lemma only_insert_same (k : nat) (s : list ObserverObj) (ob' : ObserverObj) :
  only_alive k s -> only_alive k (<[k := ob']> s).
Proof.
  intros H i ob Hi Ha. destruct (decide (i = k)) as [|Hne]; [assumption|].
  rewrite list_lookup_insert_ne in Hi by congruence. eauto.
Qed.

Lemma only_insert_dead (k : nat) (s : list ObserverObj) (ob' : ObserverObj) :
  only_alive k s -> alive ob' = false -> none_alive (<[k := ob']> s).
Proof.
  intros H Hd i ob Hi. destruct (decide (i = k)) as [->|Hne].
  - destruct (decide (k < length s)) as [Hlt|Hge].
    + rewrite list_lookup_insert_eq in Hi by assumption. congruence.
    + rewrite list_insert_ge in Hi by lia.
      apply lookup_lt_Some in Hi. lia.
  - rewrite list_lookup_insert_ne in Hi by congruence.
    destruct (alive ob) eqn:Ha; [|reflexivity].
    exfalso. apply Hne. eauto.
Qed.

Lemma none_insert (k : nat) (s : list ObserverObj) (ob' : ObserverObj) :
  none_alive s -> alive ob' = false -> none_alive (<[k := ob']> s).
Proof. intros H. apply only_insert_dead. apply none_only. exact H. Qed.

Lemma none_only_insert (k : nat) (s : list ObserverObj) (ob' : ObserverObj) :
  none_alive s -> only_alive k (<[k := ob']> s).
Proof. intros H. apply only_insert_same, none_only, H. Qed.

Lemma none_snoc (s : list ObserverObj) (x : ObserverObj) :
  none_alive s -> alive x = false -> none_alive (s ++ [x]).
Proof.
  intros H Hx i ob Hi. destruct (decide (i < length s)) as [Hlt|Hge].
  - rewrite lookup_app_l in Hi by assumption. eauto.
  - rewrite lookup_app_r in Hi by lia.
    destruct (i - length s) as [|n]; cbn in Hi; [congruence|].
    destruct n; discriminate.
Qed.

Lemma none_only_snoc (s : list ObserverObj) (x : ObserverObj) :
  none_alive s -> only_alive (length s) (s ++ [x]).
Proof.
  intros H i ob Hi Ha. destruct (decide (i < length s)) as [Hlt|Hge].
  - rewrite lookup_app_l in Hi by assumption.
    rewrite (H i ob Hi) in Ha. discriminate.
  - apply lookup_lt_Some in Hi. rewrite length_app in Hi. cbn in Hi. lia.
Qed.

Lemma one_at_a_time_snoc (tr : list (Call * list ObserverObj)) (c : Call)
    (s : list ObserverObj) (k : nat) :
  one_at_a_time tr -> only_alive k s -> one_at_a_time (tr ++ [(c, s)]).
Proof.
  intros Htr Hs. apply Forall_app. split; [exact Htr|].
  apply List.Forall_cons; [|apply List.Forall_nil].
  cbn [snd]. eapply only_alive_count. exact Hs.
Qed.

(* ===================================================================== *)
(** ** The invariant of a tracker                                         *)
(* ===================================================================== *)

(** Splits a goal on the entries of a trace into one goal per entry. *)
Ltac trace_entries :=
  repeat (apply List.Forall_cons; [cbn [snd]|]); try apply List.Forall_nil.

Lemma after_stop_join_inv (o : nat) (ob : ObserverObj) (w : World) :
  store w !! o = Some ob ->
  only_alive o (store w) ->
  one_at_a_time (trace w) ->
  store (after_stop_join o ob w) !! o = Some (quiesced ob)
  /\ only_alive o (store (after_stop_join o ob w))
  /\ one_at_a_time (trace (after_stop_join o ob w))
  /\ (alive (quiesced ob) = false -> none_alive (store (after_stop_join o ob w))).
Proof.
  intros Hob Hon Htr. unfold after_stop_join. cbn [store trace].
  assert (Hlt : o < length (store w)) by (eapply lookup_lt_Some; eauto).
  split; [apply list_lookup_insert_eq; assumption|].
  split; [apply only_insert_same; assumption|].
  split.
  - apply Forall_app. split; [exact Htr|].
    trace_entries; apply (only_alive_count o), only_insert_same; assumption.
  - intros Hd. apply only_insert_dead; assumption.
Qed.

Lemma after_resolution_inv (p : Path) (w : World) (k : nat) :
  only_alive k (store w) ->
  one_at_a_time (trace w) ->
  one_at_a_time (trace (after_resolution p w)).
Proof.
  intros Hon Htr. unfold after_resolution. cbn [trace].
  apply Forall_app. split; [exact Htr|].
  trace_entries; apply (only_alive_count k); assumption.
Qed.

Lemma after_restart_inv (c : ObserverClass) (q : bool)
    (h : option FileEventHandler) (dir : Path) (w : World) :
  none_alive (store w) ->
  one_at_a_time (trace w) ->
  (exists ob, store (after_restart c q h dir w) !! length (store w) = Some ob
              /\ started ob = true /\ alive ob = true)
  /\ only_alive (length (store w)) (store (after_restart c q h dir w))
  /\ one_at_a_time (trace (after_restart c q h dir w)).
Proof.
  intros Hnone Htr. unfold after_restart. cbn [store trace].
  split; [eexists; split; [apply lookup_snoc|split; reflexivity]|].
  split; [apply none_only_snoc; assumption|].
  apply Forall_app. split; [exact Htr|].
  trace_entries;
    apply (only_alive_count (length (store w))), none_only_snoc; assumption.
Qed.

Lemma length_after_stop_join (o : nat) (ob : ObserverObj) (p : Path) (w : World) :
  length (store (after_stop_join o ob (after_resolution p w))) = length (store w).
Proof. unfold after_stop_join, after_resolution. cbn. apply length_insert. Qed.

Lemma started_quiesced (ob : ObserverObj) : started (quiesced ob) = started ob.
Proof. reflexivity. Qed.

Lemma alive_quiesced (ob : ObserverObj) :
  alive (quiesced ob) = alive ob && negb (quiesces ob).
Proof. reflexivity. Qed.

Lemma inv_handle_log_deleted (st : St) :
  tracker_inv st -> tracker_inv (snd (handle_log_deleted st)).
Proof.
  intros ((ob & Hob & Hst) & Hon & Htr).
  rewrite (handle_log_deleted_run st ob Hob Hst). cbn zeta.
  destruct (after_stop_join_inv _ ob (world st) Hob Hon Htr) as (Hl & Ho & Ht & _).
  destruct (alive (quiesced ob)); cbn [snd];
    (split; [exists (quiesced ob); split; [exact Hl|exact Hst]|split; assumption]).
Qed.

Lemma inv_del (st : St) : tracker_inv st -> tracker_inv (snd (del st)).
Proof.
  intros ((ob & Hob & Hst) & Hon & Htr).
  rewrite (del_run st ob Hob Hst). cbn zeta.
  destruct (after_stop_join_inv _ ob (world st) Hob Hon Htr) as (Hl & Ho & Ht & _).
  destruct (alive (quiesced ob)); cbn [snd];
    (split; [exists (quiesced ob); split; [exact Hl|exact Hst]|split; assumption]).
Qed.

Lemma inv_handle_log_moved (env : Env) (st : St) :
  tracker_inv st -> tracker_inv (snd (handle_log_moved env st)).
Proof.
  intros Hinv.
  destruct (follow_current (self st)) eqn:Hfc.
  2:{ rewrite (handle_log_moved_no_follow env st Hfc).
      apply inv_handle_log_deleted, Hinv. }
  destruct Hinv as ((ob & Hob & Hst) & Hon & Htr).
  destruct (find_logfile env) as [p|e] eqn:Hfind.
  - rewrite (handle_log_moved_run env st ob p Hfc Hfind Hob Hst). cbn zeta.
    pose proof (after_resolution_inv p (world st) _ Hon Htr) as Htr1.
    destruct (after_stop_join_inv (observer (self st)) ob
                (after_resolution p (world st)) Hob Hon Htr1)
      as (Hl & Ho & Ht & Hnone).
    destruct (alive (quiesced ob)) eqn:Ha; cbn [snd].
    + split; [exists (quiesced ob); split; [exact Hl|exact Hst]|split; assumption].
    + destruct (after_restart_inv (observer_class env) (observer_quiesces env)
                  (event_handler (self st)) (parent p) _ (Hnone eq_refl) Ht)
        as ((nb & Hnb & Hns & _) & Hno & Hnt).
      rewrite length_after_stop_join in Hnb, Hno.
      split; [exists nb; split; assumption|split; assumption].
  - rewrite (handle_log_moved_raise env st e Hfc Hfind). cbn [snd].
    split; [exists ob; split; assumption|].
    split; [assumption|]. cbn [world trace].
    eapply one_at_a_time_snoc; eassumption.
Qed.

Lemma inv_print (st : St) (c : Call) :
  tracker_inv st ->
  tracker_inv (mkSt (self st)
                 {| store := store (world st);
                    trace := trace (world st) ++ [(c, store (world st))] |}).
Proof.
  intros (Hob & Hon & Htr). split; [exact Hob|]. split; [exact Hon|].
  cbn [world trace]. eapply one_at_a_time_snoc; eassumption.
Qed.

Lemma dispatch_run (fnmatch : string -> string -> bool) (env : Env)
    (h : FileEventHandler) (event : FileSystemEvent) (st : St) :
  dispatch fnmatch env h event st =
    if delivers fnmatch h (self st) event then
      let st1 := mkSt (self st)
                   {| store := store (world st);
                      trace := trace (world st)
                               ++ [(CallPrint (src_path event), store (world st))] |} in
      match event_type event with
      | EVENT_TYPE_MOVED => handle_log_moved env st1
      | EVENT_TYPE_DELETED => handle_log_deleted st1
      | _ => (Ok tt, st1)
      end
    else (Ok tt, st).
Proof.
  unfold dispatch. unfold bind at 1. unfold gets at 1.
  destruct (delivers fnmatch h (self st) event); [|reflexivity].
  unfold bind at 1. unfold on_any_event, liftW, log, modify. cbn zeta.
  destruct (event_type event); reflexivity.
Qed.

Lemma inv_run_op (fnmatch : string -> string -> bool) (op : Op) (st : St) :
  tracker_inv st -> tracker_inv (snd (run_op fnmatch op st)).
Proof.
  intros Hinv. destruct op as [env| | |env h event]; cbn [run_op].
  - apply inv_handle_log_moved, Hinv.
  - apply inv_handle_log_deleted, Hinv.
  - apply inv_del, Hinv.
  - rewrite dispatch_run.
    destruct (delivers fnmatch h (self st) event); [|exact Hinv].
    cbn zeta. destruct (event_type event); cbn [snd].
    + apply inv_handle_log_moved, inv_print, Hinv.
    + apply inv_handle_log_deleted, inv_print, Hinv.
    + apply inv_print, Hinv.
    + apply inv_print, Hinv.
Qed.

Lemma init_unfold (env : Env) (path_arg : PathArg) (observer_arg : option nat)
    (follow : bool) (w : World) :
  init env path_arg observer_arg follow w =
    if truthy path_arg then
      match path_arg with
      | ArgStr s => checked env observer_arg (resolve env (Path_of_str s)) follow w
      | ArgPath p => checked env observer_arg (resolve env p) follow w
      | _ => (Raise TypeError, w)
      end
    else
      let w1 := {| store := store w;
                   trace := trace w ++ [(CallFindLogfile (find_logfile env), store w)] |} in
      match find_logfile env with
      | Ok p => checked env observer_arg (resolve env p) follow w1
      | Raise e => (Raise e, w1)
      end.
Proof.
  unfold init, checked, attach, bind, call_find_logfile, bind, log, modify, ret.
  destruct path_arg as [|s|p|b]; cbn [truthy negb];
    try destruct (String.eqb s ""); try destruct b; cbn [negb];
    try destruct (find_logfile env) as [q|e]; try reflexivity;
    match goal with
    | |- context [exists_ env ?x] => destruct (exists_ env x); reflexivity
    end.
Qed.

Lemma attach_fresh (env : Env) (p : Path) (follow : bool) (w : World) :
  attach env None p follow w =
    (Ok {| path := p; observer := length (store w);
           event_handler := Some (FileEventHandler_init p);
           follow_current := follow |},
     after_restart (observer_class env) (observer_quiesces env)
       (Some (FileEventHandler_init p)) (parent p) w).
Proof.
  unfold attach. rewrite get_watchdog_observer_eq.
  unfold bind, new_observer, schedule, start, bind, deref, put, log,
    set_store, modify, ret.
  cbn. rewrite lookup_snoc. cbn.
  rewrite insert_snoc, lookup_snoc. cbn. rewrite insert_snoc.
  unfold after_restart. cbn. rewrite <- !app_assoc. reflexivity.
Qed.

Lemma attach_supplied (env : Env) (o : nat) (p : Path) (follow : bool) (w : World) :
  attach env (Some o) p follow w =
    match store w !! o with
    | None => (Raise ReferenceError, w)
    | Some ob =>
        let wt := mkWatch (Some (FileEventHandler_init p)) (parent p) false in
        let s1 := <[o := obj_schedule wt ob]> (store w) in
        let s2 := <[o := obj_start (obj_schedule wt ob)]> (store w) in
        let c1 := CallSchedule o (Some (FileEventHandler_init p)) (parent p) false in
        if started ob
        then (Raise ThreadStartedTwice,
              {| store := s1; trace := trace w ++ [(c1, s1); (CallStart o, s1)] |})
        else (Ok {| path := p; observer := o;
                    event_handler := Some (FileEventHandler_init p);
                    follow_current := follow |},
              {| store := s2; trace := trace w ++ [(c1, s1); (CallStart o, s2)] |})
    end.
Proof.
  unfold attach, bind, schedule, start, bind, deref, put, log, modify, ret, raise.
  cbn. destruct (store w !! o) as [ob|] eqn:Hob; [|reflexivity].
  assert (Hlt : o < length (store w)) by (eapply lookup_lt_Some; eauto).
  cbn. rewrite list_lookup_insert_eq by assumption. cbn.
  destruct (started ob); cbn.
  - rewrite <- !app_assoc. reflexivity.
  - rewrite list_insert_insert_eq, <- !app_assoc. reflexivity.
Qed.

Lemma attach_inv (env : Env) (observer_arg : option nat) (p : Path)
    (follow : bool) (w : World) :
  none_alive (store w) ->
  one_at_a_time (trace w) ->
  match attach env observer_arg p follow w with
  | (Ok t, w') => tracker_inv (mkSt t w') /\ observer_alive (mkSt t w') = true
  | (Raise _, w') => none_alive (store w') /\ one_at_a_time (trace w')
  end.
Proof.
  intros Hnone Htr. destruct observer_arg as [o|].
  - rewrite attach_supplied. destruct (store w !! o) as [ob|] eqn:Hob; [|auto].
    assert (Hlt : o < length (store w)) by (eapply lookup_lt_Some; eauto).
    cbn zeta. destruct (started ob) eqn:Hst.
    + assert (Hd : none_alive (<[o := obj_schedule
                      (mkWatch (Some (FileEventHandler_init p)) (parent p) false) ob]>
                      (store w))).
      { apply none_insert; [assumption|]. cbn. eauto. }
      split; [exact Hd|]. cbn [trace].
      apply Forall_app. split; [exact Htr|].
      trace_entries; rewrite none_alive_count; auto.
    + unfold tracker_inv, observer_alive. cbn [self world store trace observer].
      rewrite list_lookup_insert_eq by assumption. cbn.
      split; [|reflexivity].
      split; [eexists; split; reflexivity|].
      split; [apply none_only_insert; assumption|].
      apply Forall_app. split; [exact Htr|].
      trace_entries.
      * rewrite none_alive_count; [lia|]. apply none_insert; [assumption|].
        cbn. eauto.
      * apply (only_alive_count o), none_only_insert. assumption.
  - rewrite attach_fresh.
    destruct (after_restart_inv (observer_class env) (observer_quiesces env)
                (Some (FileEventHandler_init p)) (parent p) w Hnone Htr)
      as ((ob & Hob & Hst & Ha) & Hon & Ht).
    unfold tracker_inv, observer_alive. cbn [self world observer].
    rewrite Hob. split; [|exact Ha].
    split; [exists ob; split; [reflexivity|assumption]|]. split; assumption.
Qed.

Lemma init_inv (env : Env) (path_arg : PathArg) (observer_arg : option nat)
    (follow : bool) (w0 : World) :
  initial w0 ->
  match init env path_arg observer_arg follow w0 with
  | (Ok t, w) => tracker_inv (mkSt t w) /\ observer_alive (mkSt t w) = true
  | (Raise _, w) => none_alive (store w) /\ one_at_a_time (trace w)
  end.
Proof.
  intros (Htr0 & Hnone).
  assert (Htr : one_at_a_time (trace w0)) by (rewrite Htr0; constructor).
  assert (Hchk : forall p w, none_alive (store w) -> one_at_a_time (trace w) ->
            match checked env observer_arg p follow w with
            | (Ok t, w') => tracker_inv (mkSt t w') /\ observer_alive (mkSt t w') = true
            | (Raise _, w') => none_alive (store w') /\ one_at_a_time (trace w')
            end).
  { intros p w Hn Ht. unfold checked. destruct (exists_ env p); [|auto].
    apply attach_inv; assumption. }
  rewrite init_unfold.
  destruct (truthy path_arg).
  - destruct path_arg; try (apply Hchk; assumption); split; assumption.
  - cbn zeta.
    assert (Htr1 : one_at_a_time (trace w0
              ++ [(CallFindLogfile (find_logfile env), store w0)])).
    { eapply one_at_a_time_snoc; [exact Htr|]. apply (none_only 0), Hnone. }
    destruct (find_logfile env) as [p|e]; [|auto].
    apply Hchk; assumption.
Qed.

Lemma reachable_inv (fnmatch : string -> string -> bool) (st : St) :
  reachable fnmatch st -> tracker_inv st.
Proof.
  induction 1 as [env pa oa fc w0 t w Hinit Hrun|st op _ IH].
  - pose proof (init_inv env pa oa fc w0 Hinit) as H. rewrite Hrun in H.
    apply H.
  - apply inv_run_op, IH.
Qed.

Lemma calls_since_ext (w w' : World) (ext : list (Call * list ObserverObj)) :
  trace w' = trace w ++ ext -> calls_since w w' = map fst ext.
Proof. intros H. unfold calls_since. rewrite H, drop_app_length. reflexivity. Qed.

Lemma still_active_eq (st : St) (ob : ObserverObj) :
  store (world st) !! observer (self st) = Some ob ->
  still_active st = alive (quiesced ob).
Proof.
  intros Hob. unfold still_active, observer_alive, backend_quiesces.
  rewrite Hob. reflexivity.
Qed.

Lemma observer_alive_after_stop_join (t : ArenaLog) (ob : ObserverObj) (w : World) :
  store w !! observer t = Some ob ->
  observer_alive (mkSt t (after_stop_join (observer t) ob w)) = alive (quiesced ob).
Proof.
  intros Hob. unfold observer_alive, after_stop_join. cbn [self world store].
  rewrite list_lookup_insert_eq by (eapply lookup_lt_Some; eauto). reflexivity.
Qed.

Lemma calls_after_stop_join (o : nat) (ob : ObserverObj) (w : World) :
  calls_since w (after_stop_join o ob w) = shutdown_calls o (alive (quiesced ob)).
Proof. unfold after_stop_join. apply calls_since_app. Qed.


Lemma shutdown_del (st : St) :
  tracker_inv st ->
  let st' := snd (del st) in
  fst (del st)
    = (if still_active st then Raise UNABLE_TO_STOP_OBSERVER_EXCEPTION else Ok tt)
  /\ calls_since (world st) (world st')
     = shutdown_calls (observer (self st)) (still_active st)
  /\ self st' = self st
  /\ observer_alive st' = still_active st
  /\ (still_active st = false -> active_handles (store (world st')) = 0).
Proof.
  intros ((ob & Hob & Hst) & Hon & Htr). cbn zeta.
  rewrite (del_run st ob Hob Hst), (still_active_eq st ob Hob).
  cbn zeta.
  destruct (after_stop_join_inv _ ob (world st) Hob Hon Htr) as (_ & _ & _ & Hn).
  pose proof (observer_alive_after_stop_join (self st) ob (world st) Hob) as Hal.
  pose proof (calls_after_stop_join (observer (self st)) ob (world st)) as Hc.
  destruct (alive (quiesced ob)) eqn:Ha; cbn [fst snd self world];
    repeat split; try assumption; try discriminate.
  intros _. apply none_alive_count, Hn. reflexivity.
Qed.

Lemma snapshots_at_new_ext (w w' : World) (ext : list (Call * list ObserverObj)) :
  trace w' = trace w ++ ext ->
  snapshots_at_new w w'
    = map snd (List.filter (fun cs => is_new_observer (fst cs)) ext).
Proof. intros H. unfold snapshots_at_new. rewrite H, drop_app_length. reflexivity. Qed.

Lemma snapshots_at_new_app (w : World) (s : list ObserverObj)
    (ext : list (Call * list ObserverObj)) :
  snapshots_at_new w {| store := s; trace := trace w ++ ext |}
    = map snd (List.filter (fun cs => is_new_observer (fst cs)) ext).
Proof. apply snapshots_at_new_ext. reflexivity. Qed.

(** The entries a rotation that goes through adds to the trace. *)
Lemma rotation_trace (c : ObserverClass) (q : bool) (h : option FileEventHandler)
    (o : nat) (ob : ObserverObj) (p : Path) (w : World) :
  let w2 := after_stop_join o ob (after_resolution p w) in
  trace (after_restart c q h (parent p) w2)
  = trace w
    ++ [(CallFindLogfile (Ok p), store w);
        (CallPrint ("New path: " ++ str p), store w);
        (CallStop o, <[o := obj_stop ob]> (store w));
        (CallJoin o, store w2);
        (CallIsAlive o (alive (quiesced ob)), store w2);
        (CallNewObserver (length (store w)) c, store w2 ++ [fresh_observer c q]);
        (CallSchedule (length (store w)) h (parent p) false,
         store w2 ++ [obj_schedule (mkWatch h (parent p) false) (fresh_observer c q)]);
        (CallStart (length (store w)),
         store w2 ++ [obj_start (obj_schedule (mkWatch h (parent p) false)
                                   (fresh_observer c q))])].
Proof.
  cbn zeta. unfold after_restart, after_stop_join, after_resolution.
  cbn [store trace]. rewrite length_insert, <- !app_assoc. reflexivity.
Qed.

Lemma shutdown_trace (o : nat) (ob : ObserverObj) (p : Path) (w : World) :
  trace (after_stop_join o ob (after_resolution p w))
  = trace w
    ++ [(CallFindLogfile (Ok p), store w);
        (CallPrint ("New path: " ++ str p), store w);
        (CallStop o, <[o := obj_stop ob]> (store w));
        (CallJoin o, <[o := quiesced ob]> (store w));
        (CallIsAlive o (alive (quiesced ob)), <[o := quiesced ob]> (store w))].
Proof.
  unfold after_stop_join, after_resolution.
  cbn [store trace]. rewrite <- !app_assoc. reflexivity.
Qed.

(** A rotation on a tracker that satisfies the invariant, when the
    resolver finds the log file. *)
Lemma rotation (env : Env) (st : St) (p : Path) :
  tracker_inv st ->
  follow_current (self st) = true ->
  find_logfile env = Ok p ->
  let st' := snd (handle_log_moved env st) in
  let o := observer (self st) in
  let n := length (store (world st)) in
  (still_active st = true ->
     fst (handle_log_moved env st) = Raise UNABLE_TO_STOP_OBSERVER_EXCEPTION
     /\ calls_since (world st) (world st')
        = [CallFindLogfile (Ok p); CallPrint ("New path: " ++ str p)]
          ++ shutdown_calls o true
     /\ snapshots_at_new (world st) (world st') = []
     /\ self st' = with_path p (self st)
     /\ observer_alive st' = true)
  /\ (still_active st = false ->
     fst (handle_log_moved env st) = Ok tt
     /\ calls_since (world st) (world st')
        = rotation_calls o n (observer_class env) p (event_handler (self st))
     /\ Forall (fun s => active_handles s = 0)
               (snapshots_at_new (world st) (world st'))
     /\ self st' = with_observer n (with_path p (self st))
     /\ observer_alive st' = true
     /\ active_handles (store (world st')) = 1
     /\ n <> o).
Proof.
  intros ((ob & Hob & Hst) & Hon & Htr) Hfc Hp. cbn zeta.
  rewrite (handle_log_moved_run env st ob p Hfc Hp Hob Hst).
  rewrite (still_active_eq st ob Hob). cbn zeta.
  pose proof (after_resolution_inv p (world st) _ Hon Htr) as Htr1.
  destruct (after_stop_join_inv (observer (self st)) ob
              (after_resolution p (world st)) Hob Hon Htr1)
    as (Hl & Ho & Ht & Hnone).
  split; intros Ha; rewrite Ha; cbn [fst snd self world].
  - split; [reflexivity|].
    pose proof (shutdown_trace (observer (self st)) ob p (world st)) as Hx.
    rewrite Ha in Hx.
    split; [rewrite (calls_since_ext _ _ _ Hx); reflexivity|].
    split; [rewrite (snapshots_at_new_ext _ _ _ Hx); reflexivity|].
    split; [reflexivity|].
    rewrite <- Ha.
    apply (observer_alive_after_stop_join (with_path p (self st)) ob
             (after_resolution p (world st)) Hob).
  - specialize (Hnone Ha).
    destruct (after_restart_inv (observer_class env) (observer_quiesces env)
                (event_handler (self st)) (parent p) _ Hnone Ht)
      as ((nb & Hnb & Hns & Hna) & Hno & Hnt).
    rewrite length_after_stop_join in Hnb, Hno.
    pose proof (rotation_trace (observer_class env) (observer_quiesces env)
                  (event_handler (self st)) (observer (self st)) ob p (world st)) as Hx.
    cbn zeta in Hx. rewrite Ha in Hx.
    split; [reflexivity|].
    split; [rewrite (calls_since_ext _ _ _ Hx); reflexivity|].
    split.
    { rewrite (snapshots_at_new_ext _ _ _ Hx). cbn.
      constructor; [|constructor].
      apply none_alive_count, none_snoc; [exact Hnone|reflexivity]. }
    split; [reflexivity|].
    split; [unfold observer_alive, with_observer; cbn [self world observer];
            rewrite Hnb; exact Hna|].
    split; [eapply only_alive_exactly; eassumption|].
    apply lookup_lt_Some in Hob. lia.
Qed.

(* ===================================================================== *)
(** ** The scenarios are reachable                                        *)
(* ===================================================================== *)

Lemma initial_empty_world : initial Scenario.empty_world.
Proof. split; [reflexivity|]. intros i ob Hi. destruct i; discriminate. Qed.


Lemma constructed_reachable (fnmatch : string -> string -> bool) (env : Env)
    (path_arg : PathArg) (observer_arg : option nat) (follow : bool)
    (w0 : World) (st : St) :
  initial w0 ->
  Scenario.constructed (init env path_arg observer_arg follow w0) = Some st ->
  reachable fnmatch st.
Proof.
  intros Hi Hc.
  destruct (init env path_arg observer_arg follow w0) as [[t|e] w] eqn:Hrun;
    cbn in Hc; [|discriminate].
  injection Hc as <-. eapply reach_init; eauto.
Qed.

Lemma tracker_tmp_reachable (fnmatch : string -> string -> bool) (follow : bool) :
  reachable fnmatch (Scenario.tracker_tmp follow).
Proof.
  apply (constructed_reachable fnmatch Scenario.windows (ArgStr "/tmp/Player.log")
           None follow Scenario.empty_world); [apply initial_empty_world|].
  destruct follow; vm_compute; reflexivity.
Qed.


Lemma tracker_stopped_reachable (fnmatch : string -> string -> bool) :
  reachable fnmatch Scenario.tracker_stopped.
Proof.
  apply (reach_step fnmatch (Scenario.tracker_tmp true) OpDeleted).
  apply tracker_tmp_reachable.
Qed.

(* ===================================================================== *)
(** ** A rotation whose resolution fails                                  *)
(* ===================================================================== *)



(* ===================================================================== *)
(** ** Rotation: a Moved event with [follow_current]                      *)
(* ===================================================================== *)

Lemma watching_alive (st : St) : state st = Watching <-> observer_alive st = true.
Proof. unfold state. destruct (observer_alive st); split; congruence. Qed.

Lemma stopped_dead (st : St) : state st = Stopped <-> observer_alive st = false.
Proof. unfold state. destruct (observer_alive st); split; congruence. Qed.


Lemma dead_not_active (st : St) :
  observer_alive st = false -> still_active st = false.
Proof. intros H. unfold still_active. rewrite H. reflexivity. Qed.

Lemma find_logfile_ok (env : Env) (p : Path) :
  find_logfile env = Ok p ->
  system env = WINDOWS_PLATFORM_IDENTIFIER
  /\ p = resolve env (logfile_path env).
Proof.
  intros H. destruct (String.eqb_spec (system env) WINDOWS_PLATFORM_IDENTIFIER) as [Hs|Hs].
  - split; [exact Hs|]. rewrite (find_logfile_windows env Hs) in H.
    destruct (_ && _); congruence.
  - rewrite (find_logfile_other env Hs) in H. discriminate.
Qed.







(* ===================================================================== *)
(** ** At most one watch handle                                           *)
(* ===================================================================== *)

(** C4: whatever construction does, and in every state a tracker can
    reach by Moved handling, Deleted handling, teardown or event
    dispatch, at most one watch handle is active, and at most one was
    active after every call made so far; when a Moved handling builds a
    new observer, it has before that, in this order, stopped the old
    one, joined it and seen it not alive, and no handle is active in the
    store the new observer is put in. *)
Theorem C4_at_most_one_watch_handle (fnmatch : string -> string -> bool) :
  (forall env path_arg observer_arg follow w0,
     initial w0 ->
     let w := snd (init env path_arg observer_arg follow w0) in
     active_handles (store w) <= 1 /\ one_at_a_time (trace w))
  /\ (forall st,
        reachable fnmatch st ->
        active_handles (store (world st)) <= 1
        /\ one_at_a_time (trace (world st)))
  /\ (forall env st,
        reachable fnmatch st ->
        let w := world st in
        let w' := world (snd (handle_log_moved env st)) in
        let o := observer (self st) in
        Forall (fun s => active_handles s = 0) (snapshots_at_new w w')
        /\ forall n c, In (CallNewObserver n c) (calls_since w w') ->
             n <> o
             /\ exists p, calls_since w w'
                          = rotation_calls o n c p (event_handler (self st))).
Proof.
  split; [|split].
  - intros env pa oa fc w0 Hi. cbn zeta.
    pose proof (init_inv env pa oa fc w0 Hi) as H.
    destruct (init env pa oa fc w0) as [[t|e] w]; cbn [snd].
    + destruct H as ((_ & Hon & Htr) & _).
      split; [eapply only_alive_count; exact Hon|exact Htr].
    + destruct H as (Hn & Htr).
      split; [rewrite none_alive_count; auto|exact Htr].
  - intros st Hr. destruct (reachable_inv _ _ Hr) as (_ & Hon & Htr).
    split; [eapply only_alive_count; exact Hon|exact Htr].
  - intros env st Hr. cbn zeta.
    pose proof (reachable_inv _ _ Hr) as Hinv.
    destruct (follow_current (self st)) eqn:Hfc.
    + destruct (find_logfile env) as [p|e] eqn:Hp.
      * destruct (rotation env st p Hinv Hfc Hp) as (Hact & Hquiet).
        destruct (still_active st) eqn:Ha.
        -- destruct (Hact eq_refl) as (_ & Hcalls & Hsnap & _).
           rewrite Hcalls, Hsnap. split; [constructor|].
           intros n c Hin. cbn in Hin.
           repeat (destruct Hin as [Hin|Hin]; [discriminate|]). destruct Hin.
        -- destruct (Hquiet eq_refl) as (_ & Hcalls & Hsnap & _ & _ & _ & Hne).
           rewrite Hcalls. split; [exact Hsnap|].
           intros n c Hin. cbn in Hin.
           repeat (destruct Hin as [Hin|Hin]; [try discriminate|]);
             [|destruct Hin].
           injection Hin as <- <-. split; [exact Hne|]. exists p. reflexivity.
      * rewrite (handle_log_moved_raise env st e Hfc Hp). cbn [snd world].
        rewrite (calls_since_app (world st)).
        rewrite (snapshots_at_new_app (world st)).
        split; [constructor|].
        intros n c [Hin|[]]. discriminate.
    + rewrite (handle_log_moved_no_follow env st Hfc).
      destruct Hinv as ((ob & Hob & Hst) & Hon & Htr).
      rewrite (handle_log_deleted_run st ob Hob Hst). cbn zeta.
      assert (Hw : forall t, world (snd (if alive (quiesced ob)
                    then (Raise UNABLE_TO_STOP_OBSERVER_EXCEPTION,
                          mkSt (self st) (after_stop_join (observer (self st)) ob (world st)))
                    else (@Ok unit tt,
                          mkSt t (after_stop_join (observer (self st)) ob (world st)))))
                  = after_stop_join (observer (self st)) ob (world st))
        by (intros t; destruct (alive (quiesced ob)); reflexivity).
      rewrite Hw, calls_after_stop_join.
      unfold after_stop_join.
      rewrite (snapshots_at_new_app (world st)).
      split; [constructor|].
      intros n c Hin. cbn in Hin.
      repeat (destruct Hin as [Hin|Hin]; [discriminate|]). destruct Hin.
Qed.

Lemma C4_witness :
  let st := Scenario.tracker_tmp true in
  let st' := snd (handle_log_moved Scenario.windows st) in
  active_handles (store (world st)) <= 1
  /\ active_handles (store (world st')) <= 1
  /\ one_at_a_time (trace (world st'))
  /\ Forall (fun s => active_handles s = 0) (snapshots_at_new (world st) (world st')).
Proof.
  cbn zeta.
  destruct (C4_at_most_one_watch_handle String.eqb) as (_ & Hreach & Hrot).
  split; [apply Hreach, tracker_tmp_reachable|].
  split; [|split].
  - apply (Hreach (snd (run_op String.eqb (OpMoved Scenario.windows)
                          (Scenario.tracker_tmp true)))).
    apply reach_step, tracker_tmp_reachable.
  - apply (Hreach (snd (run_op String.eqb (OpMoved Scenario.windows)
                          (Scenario.tracker_tmp true)))).
    apply reach_step, tracker_tmp_reachable.
  - apply (Hrot Scenario.windows (Scenario.tracker_tmp true)).
    apply tracker_tmp_reachable.
Defined.

(* ===================================================================== *)
(** ** Deleted events, and Moved events without [follow_current]          *)
(* ===================================================================== *)



(* ===================================================================== *)
(** ** The shutdown error                                                 *)
(* ===================================================================== *)




(* ===================================================================== *)
(** ** Teardown of a stopped tracker                                      *)
(* ===================================================================== *)

(** C7, as the code has it: teardown of a Stopped tracker does not
    raise and leaves it Stopped with no active watch handle, but it does
    call [stop] and [join] on the observer once more. *)
Theorem C7_teardown_of_stopped_tracker (fnmatch : string -> string -> bool) (st : St) :
  reachable fnmatch st ->
  state st = Stopped ->
  let st' := snd (del st) in
  fst (del st) = Ok tt
  /\ calls_since (world st) (world st') = shutdown_calls (observer (self st)) false
  /\ self st' = self st
  /\ state st' = Stopped
  /\ active_handles (store (world st')) = 0.
Proof.
  intros Hr Hs. cbn zeta.
  pose proof (dead_not_active st (proj1 (stopped_dead st) Hs)) as Hna.
  destruct (shutdown_del st (reachable_inv _ _ Hr)) as (Hres & Hcalls & Hself & Hal & Hcnt).
  rewrite Hna in Hres, Hcalls, Hal.
  repeat split; try assumption; [apply stopped_dead, Hal|apply Hcnt, Hna].
Qed.

Lemma C7_witness :
  let st := Scenario.tracker_stopped in
  state st = Stopped
  /\ fst (del st) = Ok tt
  /\ calls_since (world st) (world (snd (del st)))
     = [CallStop 0; CallJoin 0; CallIsAlive 0 false].
Proof.
  cbn zeta.
  destruct (C7_teardown_of_stopped_tracker String.eqb Scenario.tracker_stopped
              (tracker_stopped_reachable String.eqb) eq_refl)
    as (Hres & Hcalls & _).
  split; [reflexivity|]. split; [exact Hres|exact Hcalls].
Defined.

(** Teardown of the tracker that a Deleted event stopped calls [stop] on
    its observer a second time. *)
Lemma C7_counterexample :
  let st := Scenario.tracker_tmp true in
  let stopped := snd (handle_log_deleted st) in
  let calls1 := calls_since (world st) (world stopped) in
  let calls2 := calls_since (world stopped) (world (snd (del stopped))) in
  state stopped = Stopped
  /\ existsb is_stop calls1 = true
  /\ fst (del stopped) = Ok tt
  /\ existsb is_stop calls2 = true
  /\ calls2 = [CallStop 0; CallJoin 0; CallIsAlive 0 false].
Proof. cbn zeta. repeat split. Qed.

(* ===================================================================== *)
(** ** pathlib: [Path(str(p))] for a well-formed path                     *)
(* ===================================================================== *)

Lemma split_on_no_slash (x : string) :
  has_slash x = false -> split_on slash x = [x].
Proof.
  induction x as [|a x IH]; cbn; [reflexivity|].
  intros H. apply orb_false_iff in H as (Ha & Hx).
  rewrite Ha, (IH Hx). reflexivity.
Qed.

Lemma split_on_app_slash (x s : string) :
  has_slash x = false ->
  split_on slash (x ++ String slash s)%string = x :: split_on slash s.
Proof.
  induction x as [|a x IH]; cbn; intros H.
  - reflexivity.
  - apply orb_false_iff in H as (Ha & Hx). rewrite Ha, (IH Hx). reflexivity.
Qed.

Lemma part_ok_spec (x : string) :
  part_ok x = true -> keep_part x = true /\ has_slash x = false.
Proof.
  unfold part_ok. intros H. apply andb_true_iff in H as (Hk & Hs).
  split; [exact Hk|]. destruct (has_slash x); [discriminate|reflexivity].
Qed.

Lemma split_on_concat (ps : list string) :
  forallb part_ok ps = true -> ps <> [] ->
  split_on slash (String.concat "/" ps) = ps.
Proof.
  induction ps as [|x ps IH]; [congruence|].
  intros H _. cbn in H. apply andb_true_iff in H as (Hx & Hps).
  apply part_ok_spec in Hx as (_ & Hx).
  destruct ps as [|y ps].
  - cbn. apply split_on_no_slash, Hx.
  - change (String.concat "/" (x :: y :: ps))
      with (x ++ String slash (String.concat "/" (y :: ps)))%string.
    rewrite (split_on_app_slash _ _ Hx), IH; [reflexivity|exact Hps|discriminate].
Qed.

Lemma filter_keep_parts (ps : list string) :
  forallb part_ok ps = true -> List.filter keep_part ps = ps.
Proof.
  induction ps as [|x ps IH]; [reflexivity|].
  cbn. intros H. apply andb_true_iff in H as (Hx & Hps).
  apply part_ok_spec in Hx as (Hx & _). rewrite Hx, (IH Hps). reflexivity.
Qed.

Lemma parts_of_concat (ps : list string) :
  forallb part_ok ps = true ->
  List.filter keep_part (split_on slash (String.concat "/" ps)) = ps.
Proof.
  intros H. destruct ps as [|x ps]; [reflexivity|].
  rewrite split_on_concat by (assumption || discriminate).
  apply filter_keep_parts, H.
Qed.

Lemma leading_concat (ps : list string) :
  forallb part_ok ps = true -> leading slash (String.concat "/" ps) = 0.
Proof.
  destruct ps as [|x ps]; [reflexivity|].
  cbn [forallb]. intros H. apply andb_true_iff in H as (Hx & _).
  apply part_ok_spec in Hx as (Hk & Hs).
  destruct x as [|a x]; [discriminate|].
  cbn in Hs. apply orb_false_iff in Hs as (Ha & _).
  destruct ps; cbn; rewrite Ha; reflexivity.
Qed.

(** The string of a well-formed path parses back to the path. *)
Lemma Path_of_str_str (p : Path) :
  wf_path p = true -> Path_of_str (str p) = p.
Proof.
  destruct p as [a ps]. unfold wf_path. cbn [anchor parts].
  intros H. apply andb_true_iff in H as (Ha & Hps).
  pose proof (parts_of_concat ps Hps) as Hparts.
  pose proof (leading_concat ps Hps) as Hlead.
  apply orb_true_iff in Ha as [Ha|Ha]; [apply orb_true_iff in Ha as [Ha|Ha]|];
    apply String.eqb_eq in Ha; subst a.
  - destruct ps as [|x ps]; [reflexivity|].
    unfold str, Path_of_str, anchor_of. cbn [anchor parts].
    change ("" ++ String.concat "/" (x :: ps))%string with (String.concat "/" (x :: ps)).
    rewrite Hlead, Hparts. reflexivity.
  - unfold str, Path_of_str, anchor_of. cbn [anchor parts].
    change ("/" ++ String.concat "/" ps)%string with (String slash (String.concat "/" ps)).
    cbn [leading split_on]. rewrite Ascii.eqb_refl, Hlead.
    cbn [List.filter keep_part String.eqb negb andb]. rewrite Hparts. reflexivity.
  - unfold str, Path_of_str, anchor_of. cbn [anchor parts].
    change ("//" ++ String.concat "/" ps)%string
      with (String slash (String slash (String.concat "/" ps))).
    cbn [leading split_on]. rewrite Ascii.eqb_refl, Hlead.
    cbn [List.filter keep_part String.eqb negb andb]. rewrite Hparts. reflexivity.
Qed.

Lemma str_not_empty (p : Path) : parts p <> [] -> wf_path p = true -> str p <> "".
Proof.
  intros Hne Hwf Hs. pose proof (Path_of_str_str p Hwf) as H.
  rewrite Hs in H. apply Hne. rewrite <- H. reflexivity.
Qed.

(* ===================================================================== *)
(** ** The event filter on the tracked file and on other events           *)
(* ===================================================================== *)

Lemma delivers_tracked (fnmatch : string -> string -> bool)
    (h : FileEventHandler) (parent_log : ArenaLog) (event : FileSystemEvent) :
  wf_path (path parent_log) = true ->
  parts (path parent_log) <> [] ->
  is_directory event = false ->
  src_path event = str (path parent_log) ->
  (exists pat, In pat (patterns h)
               /\ fnmatch (name (path parent_log)) pat = true) ->
  delivers fnmatch h parent_log event = true.
Proof.
  intros Hwf Hne Hd Hsrc (pat & Hpat & Hm).
  pose proof (str_not_empty _ Hne Hwf) as Hstr.
  unfold delivers. rewrite Hd, Hsrc, String.eqb_refl, andb_false_r.
  rewrite (pattern_dispatch_files fnmatch h event Hd).
  apply existsb_exists. exists (str (path parent_log)). split.
  - unfold event_paths. apply in_or_app. right. rewrite Hsrc.
    destruct (String.eqb_spec (str (path parent_log)) ""); [contradiction|].
    left. reflexivity.
  - apply existsb_exists. exists pat. split; [exact Hpat|].
    unfold path_match. rewrite (Path_of_str_str _ Hwf).
    destruct (parts (path parent_log)); [contradiction|exact Hm].
Qed.

(** X1: a file event whose source path is the tracked path is delivered,
    as soon as the name of the tracked file matches one of the
    handler's patterns. *)
Theorem X1_tracked_file_event_is_delivered (fnmatch : string -> string -> bool)
    (h : FileEventHandler) (parent_log : ArenaLog) (event : FileSystemEvent) :
  wf_path (path parent_log) = true ->
  parts (path parent_log) <> [] ->
  is_directory event = false ->
  src_path event = str (path parent_log) ->
  (exists pat, In pat (patterns h)
               /\ fnmatch (name (path parent_log)) pat = true) ->
  delivers fnmatch h parent_log event = true.
Proof. apply delivers_tracked. Qed.

Lemma X1_witness :
  delivers String.eqb Cases.tmp_handler (self (Scenario.tracker_tmp true))
    Cases.tracked_moved = true.
Proof.
  apply (X1_tracked_file_event_is_delivered String.eqb Cases.tmp_handler
           (self (Scenario.tracker_tmp true)) Cases.tracked_moved).
  - reflexivity.
  - discriminate.
  - reflexivity.
  - reflexivity.
  - exists CURRENT_LOGFILE_NAME. split; [left; reflexivity|reflexivity].
Defined.

(** X2: a directory event, and an event whose source path is given and
    is not the tracked path, are absorbed: [dispatch] returns without a
    call, a print or a change of the tracker. *)
Theorem X2_irrelevant_event_changes_nothing (fnmatch : string -> string -> bool)
    (env : Env) (h : FileEventHandler) (event : FileSystemEvent) (st : St) :
  is_directory event = true
  \/ (src_path event <> "" /\ src_path event <> str (path (self st))) ->
  dispatch fnmatch env h event st = (Ok tt, st).
Proof.
  intros Hcase. rewrite dispatch_run.
  assert (Hdel : delivers fnmatch h (self st) event = false).
  { unfold delivers. destruct Hcase as [Hd|(He & Ht)].
    - rewrite Hd. reflexivity.
    - destruct (is_directory event); [reflexivity|].
      destruct (String.eqb_spec (src_path event) ""); [contradiction|].
      destruct (String.eqb_spec (src_path event) (str (path (self st))));
        [contradiction|reflexivity]. }
  rewrite Hdel. reflexivity.
Qed.

Lemma X2_witness :
  dispatch String.eqb Scenario.windows Cases.tmp_handler Cases.dir_deleted
    (Scenario.tracker_tmp true) = (Ok tt, Scenario.tracker_tmp true)
  /\ dispatch String.eqb Scenario.windows Cases.tmp_handler Cases.other_modified
    (Scenario.tracker_tmp true) = (Ok tt, Scenario.tracker_tmp true).
Proof.
  split.
  - apply (X2_irrelevant_event_changes_nothing String.eqb Scenario.windows
             Cases.tmp_handler Cases.dir_deleted (Scenario.tracker_tmp true)).
    left. reflexivity.
  - apply (X2_irrelevant_event_changes_nothing String.eqb Scenario.windows
             Cases.tmp_handler Cases.other_modified (Scenario.tracker_tmp true)).
    right. split; discriminate.
Defined.

(** X3: a Created or Modified event never reaches the tracker's
    handling methods: whether it is delivered or not, [dispatch]
    returns, the instance and the observers are as before, and at most
    the event was printed. *)
Theorem X3_created_modified_only_print (fnmatch : string -> string -> bool)
    (env : Env) (h : FileEventHandler) (event : FileSystemEvent) (st : St) :
  event_type event = EVENT_TYPE_CREATED \/ event_type event = EVENT_TYPE_MODIFIED ->
  let st' := snd (dispatch fnmatch env h event st) in
  fst (dispatch fnmatch env h event st) = Ok tt
  /\ self st' = self st
  /\ store (world st') = store (world st)
  /\ state st' = state st
  /\ calls_since (world st) (world st')
     = (if delivers fnmatch h (self st) event
        then [CallPrint (src_path event)] else []).
Proof.
  intros Hty. cbn zeta. rewrite dispatch_run.
  destruct (delivers fnmatch h (self st) event).
  - cbn zeta.
    assert (Hrun : match event_type event with
                   | EVENT_TYPE_MOVED => handle_log_moved env (printed (CallPrint (src_path event)) st)
                   | EVENT_TYPE_DELETED => handle_log_deleted (printed (CallPrint (src_path event)) st)
                   | _ => (Ok tt, printed (CallPrint (src_path event)) st)
                   end = (Ok tt, printed (CallPrint (src_path event)) st))
      by (destruct Hty as [-> | ->]; reflexivity).
    unfold printed in Hrun. rewrite Hrun. cbn [fst snd self world store].
    repeat split. apply calls_since_app.
  - cbn [fst snd]. repeat split.
    unfold calls_since. rewrite drop_all. reflexivity.
Qed.

Lemma X3_witness :
  let st := Scenario.tracker_tmp true in
  let r := dispatch String.eqb Scenario.windows Cases.tmp_handler
             Cases.tracked_modified st in
  fst r = Ok tt
  /\ self (snd r) = self st
  /\ store (world (snd r)) = store (world st)
  /\ calls_since (world st) (world (snd r)) = [CallPrint "/tmp/Player.log"].
Proof.
  cbn zeta.
  destruct (X3_created_modified_only_print String.eqb Scenario.windows
              Cases.tmp_handler Cases.tracked_modified (Scenario.tracker_tmp true)
              (or_intror eq_refl))
    as (Hr & Hs & Hst & _ & Hc).
  repeat split; assumption.
Defined.

(* ===================================================================== *)
(** ** Events that reach the handling methods                             *)
(* ===================================================================== *)



Lemma del_extends (st : St) :
  tracker_inv st ->
  exists ext, trace (world (snd (del st))) = trace (world st) ++ ext.
Proof.
  intros ((ob & Hob & Hst) & _). rewrite (del_run st ob Hob Hst).
  cbn zeta. destruct (alive (quiesced ob)); cbn [snd world];
    unfold after_stop_join; cbn [trace]; eexists; reflexivity.
Qed.


Lemma printed_inv (c : Call) (st : St) : tracker_inv st -> tracker_inv (printed c st).
Proof. apply inv_print. Qed.







(* ===================================================================== *)
(** ** Construction                                                       *)
(* ===================================================================== *)

Lemma find_logfile_raise (env : Env) (e : exn) :
  find_logfile env = Raise e ->
  e = NO_LOGFILE_FOUND_EXCEPTION \/ e = NotImplementedError (system env).
Proof.
  intros He.
  destruct (String.eqb_spec (system env) WINDOWS_PLATFORM_IDENTIFIER) as [Hs|Hs].
  - left. rewrite (find_logfile_windows env Hs) in He.
    destruct (_ && _); congruence.
  - right. rewrite (find_logfile_other env Hs) in He. congruence.
Qed.

Lemma truthy_explicit (a : PathArg) (p : Path) :
  explicit_path a = Some p -> truthy a = true.
Proof.
  destruct a as [|s|q|b]; cbn; try discriminate; [|reflexivity].
  destruct (String.eqb s ""); [discriminate|reflexivity].
Qed.

(** [__init__] on an explicit path. *)
Lemma init_explicit (env : Env) (path_arg : PathArg) (observer_arg : option nat)
    (follow : bool) (w : World) (p : Path) :
  explicit_path path_arg = Some p ->
  init env path_arg observer_arg follow w
    = checked env observer_arg (resolve env p) follow w.
Proof.
  intros Hp. rewrite init_unfold, (truthy_explicit _ _ Hp).
  destruct path_arg as [|s|q|b]; cbn in Hp; try discriminate.
  - destruct (String.eqb s ""); [discriminate|]. injection Hp as <-. reflexivity.
  - injection Hp as <-. reflexivity.
Qed.

(** X6: an explicit path that is not usable fails fast. A truthy
    argument that is neither a string nor a [Path] raises [TypeError]; a
    string or [Path] whose resolved path does not exist raises
    [ValueError]; in both cases the resolver is not consulted and no
    observer is built, scheduled or started. *)
Theorem X6_invalid_path_fails_fast (env : Env) (path_arg : PathArg)
    (observer_arg : option nat) (follow : bool) (w : World) :
  truthy path_arg = true ->
  (forall p, explicit_path path_arg = Some p -> exists_ env (resolve env p) = false) ->
  init env path_arg observer_arg follow w
    = (Raise (match explicit_path path_arg with
              | Some _ => ValueError
              | None => TypeError
              end), w).
Proof.
  intros Ht Hmiss.
  destruct (explicit_path path_arg) as [p|] eqn:Hp.
  - rewrite (init_explicit env path_arg observer_arg follow w p Hp).
    unfold checked. rewrite (Hmiss p eq_refl). reflexivity.
  - rewrite init_unfold, Ht.
    destruct path_arg as [|s|q|b]; cbn in Hp, Ht; try discriminate; [|reflexivity].
    destruct (String.eqb s ""); discriminate.
Qed.

Lemma X6_witness :
  init Scenario.windows (ArgOther true) None true Scenario.empty_world
    = (Raise TypeError, Scenario.empty_world)
  /\ init Scenario.windows (ArgStr "/tmp/missing.log") None true Scenario.empty_world
    = (Raise ValueError, Scenario.empty_world).
Proof.
  split.
  - apply (X6_invalid_path_fails_fast Scenario.windows (ArgOther true) None true
             Scenario.empty_world eq_refl).
    intros p Hp. discriminate Hp.
  - apply (X6_invalid_path_fails_fast Scenario.windows (ArgStr "/tmp/missing.log")
             None true Scenario.empty_world eq_refl).
    intros p Hp. injection Hp as <-. reflexivity.
Defined.

(** X7: with an explicit path whose resolved path exists and no observer
    given, construction succeeds on every platform: the resolver is not
    consulted; a new observer of the platform's class is built,
    scheduled on the parent directory without recursion, and started;
    the tracker holds the resolved path. *)
Theorem X7_explicit_path_on_any_platform (env : Env) (path_arg : PathArg)
    (follow : bool) (w : World) (p : Path) :
  explicit_path path_arg = Some p ->
  exists_ env (resolve env p) = true ->
  let r := init env path_arg None follow w in
  let n := length (store w) in
  let h := FileEventHandler_init (resolve env p) in
  fst r = Ok {| path := resolve env p; observer := n;
                event_handler := Some h; follow_current := follow |}
  /\ calls_since w (snd r)
     = [CallNewObserver n (observer_class env);
        CallSchedule n (Some h) (parent (resolve env p)) false;
        CallStart n]
  /\ store (snd r) !! n
     = Some (obj_start (obj_schedule
               (mkWatch (Some h) (parent (resolve env p)) false)
               (fresh_observer (observer_class env) (observer_quiesces env)))).
Proof.
  intros Hp Hex. cbn zeta.
  rewrite (init_explicit env path_arg None follow w p Hp).
  unfold checked. rewrite Hex, attach_fresh. cbn [fst snd].
  split; [reflexivity|].
  unfold after_restart. cbn [store].
  split; [apply calls_since_app|apply lookup_snoc].
Qed.

Lemma X7_witness :
  fst (init Scenario.linux (ArgStr "/tmp/Player.log") None false Scenario.empty_world)
  = Ok {| path := Scenario.tmp_player; observer := 0;
          event_handler := Some Cases.tmp_handler; follow_current := false |}.
Proof.
  apply (X7_explicit_path_on_any_platform Scenario.linux (ArgStr "/tmp/Player.log")
           false Scenario.empty_world (Path_of_str "/tmp/Player.log")
           eq_refl eq_refl).
Defined.

(** What a successful [attach] returns. *)
Lemma attach_ok (env : Env) (observer_arg : option nat) (p : Path) (follow : bool)
    (w : World) (t : ArenaLog) (w' : World) :
  attach env observer_arg p follow w = (Ok t, w') ->
  t = {| path := p;
         observer := match observer_arg with Some o => o | None => length (store w) end;
         event_handler := Some (FileEventHandler_init p);
         follow_current := follow |}
  /\ exists ws,
       (watches <$> store w' !! observer t)
       = Some (ws ++ [mkWatch (Some (FileEventHandler_init p)) (parent p) false])
       /\ (observer_arg = None -> ws = []).
Proof.
  destruct observer_arg as [o|].
  - rewrite attach_supplied.
    destruct (store w !! o) as [ob|] eqn:Hob; [|discriminate].
    cbn zeta. destruct (started ob); [discriminate|].
    intros H. injection H as <- <-. split; [reflexivity|].
    exists (watches ob). cbn [observer store].
    rewrite list_lookup_insert_eq by (eapply lookup_lt_Some; eauto).
    split; [reflexivity|discriminate].
  - rewrite attach_fresh. intros H. injection H as <- <-.
    split; [reflexivity|]. exists []. unfold after_restart. cbn [observer store].
    rewrite lookup_snoc. split; reflexivity.
Qed.

(** A successful construction ended in a successful [attach] on a path
    that exists. *)
Lemma init_ok (env : Env) (path_arg : PathArg) (observer_arg : option nat)
    (follow : bool) (w : World) (t : ArenaLog) (w' : World) :
  init env path_arg observer_arg follow w = (Ok t, w') ->
  exists p w1,
    exists_ env p = true
    /\ store w1 = store w
    /\ attach env observer_arg p follow w1 = (Ok t, w').
Proof.
  rewrite init_unfold.
  assert (Hchk : forall p w1, store w1 = store w ->
            checked env observer_arg p follow w1 = (Ok t, w') ->
            exists p w1, exists_ env p = true /\ store w1 = store w
                         /\ attach env observer_arg p follow w1 = (Ok t, w')).
  { intros p w1 Hs. unfold checked. destruct (exists_ env p) eqn:Hex; [|discriminate].
    intros H. exists p, w1. auto. }
  destruct (truthy path_arg).
  - destruct path_arg; try discriminate; apply Hchk; reflexivity.
  - cbn zeta. destruct (find_logfile env); [|discriminate].
    apply Hchk. reflexivity.
Qed.

(** X8: a tracker that construction returns is Watching with exactly one
    active watch handle; its path exists; its handler carries the
    patterns [Player.log], [Player-prev.log] and the name of its file;
    and the last watch of its observer is on the parent directory of the
    path, with that handler, not recursive. *)
Theorem X8_constructed_tracker_watches_parent_directory (env : Env)
    (path_arg : PathArg) (observer_arg : option nat) (follow : bool)
    (w0 : World) (t : ArenaLog) (w : World) :
  initial w0 ->
  init env path_arg observer_arg follow w0 = (Ok t, w) ->
  state (mkSt t w) = Watching
  /\ active_handles (store w) = 1
  /\ exists_ env (path t) = true
  /\ follow_current t = follow
  /\ event_handler t
     = Some {| patterns := [CURRENT_LOGFILE_NAME; PREVIOUS_LOGFILE_NAME;
                            name (path t)];
               ignore_directories := true |}
  /\ exists ws,
       (watches <$> store w !! observer t)
       = Some (ws ++ [mkWatch (event_handler t) (parent (path t)) false]).
Proof.
  intros Hi Hrun.
  pose proof (init_inv env path_arg observer_arg follow w0 Hi) as Hinv.
  rewrite Hrun in Hinv. destruct Hinv as (((ob & Hob & _) & Hon & _) & Hal).
  destruct (init_ok _ _ _ _ _ _ _ Hrun) as (p & w1 & Hex & _ & Hatt).
  destruct (attach_ok _ _ _ _ _ _ _ Hatt) as (Ht & ws & Hws & _).
  split; [apply watching_alive, Hal|].
  split.
  { cbn [self world] in Hob, Hon. eapply only_alive_exactly; [exact Hon|exact Hob|].
    unfold observer_alive in Hal. cbn [self world] in Hal.
    rewrite Hob in Hal. exact Hal. }
  rewrite Ht in Hws |- *. cbn [path follow_current event_handler observer] in Hws |- *.
  split; [exact Hex|]. split; [reflexivity|]. split; [reflexivity|].
  exists ws. exact Hws.
Qed.

Lemma X8_witness :
  let st := Scenario.tracker_tmp true in
  state st = Watching
  /\ active_handles (store (world st)) = 1
  /\ (watches <$> store (world st) !! observer (self st))
     = Some [mkWatch (Some Cases.tmp_handler) (mkPath "/" ["tmp"]) false].
Proof.
  cbn zeta.
  destruct (X8_constructed_tracker_watches_parent_directory Scenario.windows
              (ArgStr "/tmp/Player.log") None true Scenario.empty_world
              (self (Scenario.tracker_tmp true)) (world (Scenario.tracker_tmp true))
              initial_empty_world eq_refl)
    as (Hs & Hc & _).
  split; [exact Hs|]. split; [exact Hc|reflexivity].
Defined.

(** X9: an observer handed to the constructor is used as it is. No
    observer is built and no other object of the store is touched; the
    watch is scheduled on the given observer, which is then started:
    construction returns the tracker on it when it had not been started
    before, and otherwise raises the error of [Thread.start], leaving
    the watch scheduled. *)
Theorem X9_supplied_observer_is_used (env : Env) (path_arg : PathArg) (o : nat)
    (follow : bool) (w : World) (p : Path) (ob : ObserverObj) :
  explicit_path path_arg = Some p ->
  exists_ env (resolve env p) = true ->
  store w !! o = Some ob ->
  let r := init env path_arg (Some o) follow w in
  let h := FileEventHandler_init (resolve env p) in
  let wt := mkWatch (Some h) (parent (resolve env p)) false in
  length (store (snd r)) = length (store w)
  /\ (forall i, i <> o -> store (snd r) !! i = store w !! i)
  /\ (started ob = false ->
        fst r = Ok {| path := resolve env p; observer := o;
                      event_handler := Some h; follow_current := follow |}
        /\ store (snd r) !! o = Some (obj_start (obj_schedule wt ob)))
  /\ (started ob = true ->
        fst r = Raise ThreadStartedTwice
        /\ store (snd r) !! o = Some (obj_schedule wt ob)).
Proof.
  intros Hp Hex Hob. cbn zeta.
  assert (Hlt : o < length (store w)) by (eapply lookup_lt_Some; eauto).
  rewrite (init_explicit env path_arg (Some o) follow w p Hp).
  unfold checked. rewrite Hex, attach_supplied, Hob. cbn zeta.
  destruct (started ob); cbn [fst snd store].
  - split; [apply length_insert|].
    split; [intros i Hi; apply list_lookup_insert_ne; congruence|].
    split; [discriminate|]. intros _.
    split; [reflexivity|apply list_lookup_insert_eq, Hlt].
  - split; [apply length_insert|].
    split; [intros i Hi; apply list_lookup_insert_ne; congruence|].
    split; [|discriminate]. intros _.
    split; [reflexivity|apply list_lookup_insert_eq, Hlt].
Qed.

Lemma X9_witness :
  fst (init Scenario.linux (ArgStr "/tmp/Player.log") (Some 0) true
         Cases.supplied_world)
  = Ok {| path := Scenario.tmp_player; observer := 0;
          event_handler := Some Cases.tmp_handler; follow_current := true |}
  /\ fst (init Scenario.linux (ArgStr "/tmp/Player.log") (Some 0) true
            Cases.started_world)
     = Raise ThreadStartedTwice.
Proof.
  split.
  - apply (X9_supplied_observer_is_used Scenario.linux (ArgStr "/tmp/Player.log") 0
             true Cases.supplied_world (Path_of_str "/tmp/Player.log")
             (fresh_observer Supplied true) eq_refl eq_refl eq_refl).
    reflexivity.
  - apply (X9_supplied_observer_is_used Scenario.linux (ArgStr "/tmp/Player.log") 0
             true Cases.started_world (Path_of_str "/tmp/Player.log")
             (obj_join (obj_stop (obj_start (fresh_observer Supplied true))))
             eq_refl eq_refl eq_refl).
    reflexivity.
Defined.

(** X10: when no observer is given, construction raises nothing but the
    four errors of the class docstring ([TypeError], [ValueError], the
    not-found [RuntimeError], [NotImplementedError]), and a construction
    that raises has built no observer: the store is as before and the
    only call made, if any, is the one of the resolver. *)
Theorem X10_failed_construction_leaves_no_observer (env : Env) (path_arg : PathArg)
    (follow : bool) (w : World) (e : exn) (w' : World) :
  init env path_arg None follow w = (Raise e, w') ->
  construction_error env e
  /\ store w' = store w
  /\ (calls_since w w' = []
      \/ calls_since w w' = [CallFindLogfile (find_logfile env)]).
Proof.
  rewrite init_unfold. unfold construction_error.
  assert (Hchk : forall p w1, checked env None p follow w1 = (Raise e, w') ->
                              e = ValueError /\ w' = w1).
  { intros p w1. unfold checked. destruct (exists_ env p).
    - rewrite attach_fresh. discriminate.
    - intros H. injection H as <- <-. auto. }
  assert (Hnil : calls_since w w = []).
  { unfold calls_since. rewrite drop_all. reflexivity. }
  destruct (truthy path_arg).
  - destruct path_arg as [|s|p|b].
    + intros H. injection H as <- <-. auto.
    + intros H. destruct (Hchk _ _ H) as (-> & ->). auto.
    + intros H. destruct (Hchk _ _ H) as (-> & ->). auto.
    + intros H. injection H as <- <-. auto.
  - cbn zeta. destruct (find_logfile env) as [p|e0] eqn:Hf.
    + intros H. destruct (Hchk _ _ H) as (-> & ->). cbn [store].
      split; [auto|]. split; [reflexivity|]. right. apply calls_since_app.
    + intros H. injection H as <- <-. cbn [store].
      split; [destruct (find_logfile_raise env e0 Hf) as [-> | ->]; auto|].
      split; [reflexivity|]. right. apply calls_since_app.
Qed.

Lemma X10_witness :
  let r := init Scenario.windows_bare ArgNone None true Scenario.empty_world in
  fst r = Raise NO_LOGFILE_FOUND_EXCEPTION
  /\ store (snd r) = []
  /\ construction_error Scenario.windows_bare NO_LOGFILE_FOUND_EXCEPTION.
Proof.
  cbn zeta.
  destruct (X10_failed_construction_leaves_no_observer Scenario.windows_bare
              ArgNone true Scenario.empty_world NO_LOGFILE_FOUND_EXCEPTION
              (snd (init Scenario.windows_bare ArgNone None true Scenario.empty_world))
              eq_refl)
    as (He & Hs & _).
  split; [reflexivity|]. split; [exact Hs|exact He].
Defined.

(** X11: construction without a path is construction on the path the
    resolver returns: once [find_logfile] has answered, [__init__] goes
    on exactly as if that path had been given. *)
Theorem X11_automatic_is_explicit_on_found_path (env : Env) (path_arg : PathArg)
    (observer_arg : option nat) (follow : bool) (w : World) (p : Path) :
  truthy path_arg = false ->
  find_logfile env = Ok p ->
  init env path_arg observer_arg follow w
  = init env (ArgPath p) observer_arg follow
      {| store := store w;
         trace := trace w ++ [(CallFindLogfile (Ok p), store w)] |}.
Proof.
  intros Ht Hp. rewrite !init_unfold, Ht, Hp. reflexivity.
Qed.

Lemma X11_witness :
  init Scenario.windows ArgNone None true Scenario.empty_world
  = init Scenario.windows (ArgPath Scenario.default_player) None true
      {| store := [];
         trace := [(CallFindLogfile (Ok Scenario.default_player), [])] |}.
Proof.
  apply (X11_automatic_is_explicit_on_found_path Scenario.windows ArgNone None true
           Scenario.empty_world Scenario.default_player eq_refl eq_refl).
Defined.

(* ===================================================================== *)
(** ** The choice of the observer                                         *)
(* ===================================================================== *)

(** X12: [get_watchdog_observer] never raises and builds exactly one
    observer, at the end of the store: a polling observer with the
    default interval on Windows and only there, watchdog's native
    observer on every other platform; the new observer is not started,
    not alive and has no watch, and the observers already there are
    untouched. *)
Theorem X12_get_watchdog_observer_by_platform (env : Env) (w : World) :
  let r := get_watchdog_observer env w in
  fst r = Ok (length (store w))
  /\ exists ob,
       store (snd r) = store w ++ [ob]
       /\ started ob = false /\ alive ob = false /\ watches ob = []
       /\ (cls ob = PollingObserver 1 <-> system env = "Windows")
       /\ (cls ob = Observer <-> system env <> "Windows")
       /\ active_handles (store (snd r)) = active_handles (store w)
       /\ calls_since w (snd r) = [CallNewObserver (length (store w)) (cls ob)].
Proof.
  cbn zeta. rewrite get_watchdog_observer_eq.
  unfold new_observer, bind, set_store, log, modify, ret. cbn [fst snd store trace].
  split; [reflexivity|].
  exists (fresh_observer (observer_class env) (observer_quiesces env)).
  split; [reflexivity|]. split; [reflexivity|]. split; [reflexivity|].
  split; [reflexivity|].
  cbn [cls fresh_observer]. unfold observer_class.
  split; [|split; [|split]].
  - destruct (String.eqb_spec (system env) WINDOWS_PLATFORM_IDENTIFIER) as [Hs|Hs];
      split; intros H; try reflexivity; try assumption; try discriminate.
    contradiction.
  - destruct (String.eqb_spec (system env) WINDOWS_PLATFORM_IDENTIFIER) as [Hs|Hs];
      split; intros H; try reflexivity; try assumption; try discriminate.
    contradiction.
  - rewrite active_handles_snoc. cbn. lia.
  - apply calls_since_app.
Qed.

(* ===================================================================== *)
(** ** What every operation keeps                                         *)
(* ===================================================================== *)

Lemma length_after_shutdown (o : nat) (ob : ObserverObj) (w : World) :
  length (store (after_stop_join o ob w)) = length (store w).
Proof. unfold after_stop_join. cbn [store]. apply length_insert. Qed.

Lemma deleted_step_ok (rot : option Env) (st : St) :
  tracker_inv st ->
  step_ok rot st (fst (handle_log_deleted st)) (snd (handle_log_deleted st)).
Proof.
  intros ((ob & Hob & Hst) & _).
  rewrite (handle_log_deleted_run st ob Hob Hst). cbn zeta.
  pose proof (length_after_shutdown (observer (self st)) ob (world st)) as Hlen.
  unfold step_ok, quiet_step.
  destruct (alive (quiesced ob)); cbn [fst snd self world];
    unfold with_event_handler; cbn [path observer event_handler follow_current];
    rewrite Hlen;
    (split; [reflexivity|]); (split; [auto|]); (split; [lia|]);
    (split; [left; auto|]); intros e He; [left; congruence|discriminate].
Qed.

Lemma del_step_ok (rot : option Env) (st : St) :
  tracker_inv st -> step_ok rot st (fst (del st)) (snd (del st)).
Proof.
  intros ((ob & Hob & Hst) & _).
  rewrite (del_run st ob Hob Hst). cbn zeta.
  pose proof (length_after_shutdown (observer (self st)) ob (world st)) as Hlen.
  unfold step_ok, quiet_step.
  destruct (alive (quiesced ob)); cbn [fst snd self world]; rewrite Hlen;
    (split; [reflexivity|]); (split; [auto|]); (split; [lia|]);
    (split; [left; auto|]); intros e He; [left; congruence|discriminate].
Qed.

Lemma moved_step_ok (env : Env) (st : St) :
  tracker_inv st ->
  step_ok (Some env) st (fst (handle_log_moved env st)) (snd (handle_log_moved env st)).
Proof.
  intros Hinv. destruct (follow_current (self st)) eqn:Hfc.
  2:{ rewrite (handle_log_moved_no_follow env st Hfc).
      apply deleted_step_ok, Hinv. }
  destruct Hinv as ((ob & Hob & Hst) & _).
  destruct (find_logfile env) as [p|e0] eqn:Hp.
  - rewrite (handle_log_moved_run env st ob p Hfc Hp Hob Hst). cbn zeta.
    pose proof (length_after_stop_join (observer (self st)) ob p (world st)) as Hlen.
    unfold step_ok.
    destruct (alive (quiesced ob)); cbn [fst snd self world];
      unfold with_observer, with_path;
      cbn [path observer event_handler follow_current].
    + rewrite Hlen.
      split; [reflexivity|]. split; [auto|]. split; [lia|].
      split; [right; split; [exact Hfc|]; exists env, p; auto|].
      intros e He. left. congruence.
    + unfold after_restart. cbn [store]. rewrite length_app, Hlen. cbn [length].
      split; [reflexivity|]. split; [auto|]. split; [lia|].
      split; [right; split; [exact Hfc|]; exists env, p; auto|].
      intros e He. discriminate.
  - rewrite (handle_log_moved_raise env st e0 Hfc Hp).
    unfold step_ok, quiet_step. cbn [fst snd self world store].
    split; [reflexivity|]. split; [auto|]. split; [lia|].
    split; [left; auto|].
    intros e He. right. split; [exact Hfc|]. exists env.
    split; [reflexivity|congruence].
Qed.

Lemma step_ok_refl (rot : option Env) (st : St) : step_ok rot st (Ok tt) st.
Proof.
  unfold step_ok, quiet_step.
  split; [reflexivity|]. split; [auto|]. split; [lia|].
  split; [left; auto|]. discriminate.
Qed.

Lemma op_step_ok (fnmatch : string -> string -> bool) (op : Op) (st : St) :
  tracker_inv st ->
  step_ok (rotation_env op) st (fst (run_op fnmatch op st))
          (snd (run_op fnmatch op st)).
Proof.
  intros Hinv. destruct op as [env| | |env h event]; cbn [run_op].
  - apply moved_step_ok, Hinv.
  - apply deleted_step_ok, Hinv.
  - apply del_step_ok, Hinv.
  - rewrite dispatch_run.
    destruct (delivers fnmatch h (self st) event); [|apply step_ok_refl].
    cbn zeta. unfold rotation_env, may_rotate, op_env.
    pose proof (printed_inv (CallPrint (src_path event)) st Hinv) as Hinv1.
    destruct (event_type event).
    + apply (moved_step_ok env (printed (CallPrint (src_path event)) st) Hinv1).
    + apply (deleted_step_ok None (printed (CallPrint (src_path event)) st) Hinv1).
    + apply (step_ok_refl None (printed (CallPrint (src_path event)) st)).
    + apply (step_ok_refl None (printed (CallPrint (src_path event)) st)).
Qed.

Lemma rotation_env_some (op : Op) (env : Env) :
  rotation_env op = Some env -> may_rotate op = true /\ op_env op = Some env.
Proof. unfold rotation_env. destruct (may_rotate op); [auto|discriminate]. Qed.



Lemma run_ops_cons (fnmatch : string -> string -> bool) (op : Op) (ops : list Op)
    (st : St) :
  run_ops fnmatch (op :: ops) st = run_ops fnmatch ops (snd (run_op fnmatch op st)).
Proof. reflexivity. Qed.

Lemma quiet_step_trans (st st1 st2 : St) :
  quiet_step st st1 -> quiet_step st1 st2 -> quiet_step st st2.
Proof.
  unfold quiet_step. intros (Hp & Ho & Hl) (Hp' & Ho' & Hl').
  repeat split; congruence.
Qed.

(** X14: through any run of operations on a constructed tracker the
    follow flag stays what construction made it, the event handler is
    the one of construction until it is dropped, and no observer leaves
    the store; a tracker without [follow_current] keeps its path and its
    observer for good and never builds another observer. *)
Theorem X14_follow_policy_is_fixed (fnmatch : string -> string -> bool)
    (ops : list Op) (st : St) :
  reachable fnmatch st ->
  let st' := run_ops fnmatch ops st in
  follow_current (self st') = follow_current (self st)
  /\ (event_handler (self st') = event_handler (self st)
      \/ event_handler (self st') = None)
  /\ length (store (world st)) <= length (store (world st'))
  /\ (follow_current (self st) = false -> quiet_step st st').
Proof.
  cbn zeta. revert st. induction ops as [|op ops IH]; intros st Hr.
  - cbn. split; [reflexivity|]. split; [auto|]. split; [lia|].
    intros _. unfold quiet_step. auto.
  - rewrite run_ops_cons.
    destruct (op_step_ok fnmatch op st (reachable_inv _ _ Hr))
      as (Hf & Hh & Hl & Hq & _).
    destruct (IH _ (reach_step fnmatch st op Hr)) as (Hf' & Hh' & Hl' & Hq').
    split; [congruence|].
    split; [destruct Hh' as [Hh'|Hh']; [rewrite Hh'; exact Hh|auto]|].
    split; [lia|].
    intros Hfc. apply (quiet_step_trans st (snd (run_op fnmatch op st))).
    + destruct Hq as [Hq|(Hfc' & _)]; [exact Hq|congruence].
    + apply Hq'. congruence.
Qed.

Lemma X14_witness :
  let st := Scenario.tracker_tmp false in
  let st' := run_ops String.eqb
               [OpDispatch Scenario.windows Cases.tmp_handler Cases.tracked_moved;
                OpMoved Scenario.windows; OpDel] st in
  follow_current (self st') = false
  /\ path (self st') = Scenario.tmp_player
  /\ observer (self st') = 0
  /\ length (store (world st')) = 1.
Proof.
  cbn zeta.
  destruct (X14_follow_policy_is_fixed String.eqb
              [OpDispatch Scenario.windows Cases.tmp_handler Cases.tracked_moved;
               OpMoved Scenario.windows; OpDel]
              (Scenario.tracker_tmp false) (tracker_tmp_reachable String.eqb false))
    as (Hf & _ & _ & Hq).
  destruct (Hq eq_refl) as (Hp & Ho & Hl).
  split; [rewrite Hf; reflexivity|].
  split; [rewrite Hp; reflexivity|].
  split; [rewrite Ho; reflexivity|rewrite Hl; reflexivity].
Defined.

Lemma tracker_supplied_reachable (fnmatch : string -> string -> bool) :
  reachable fnmatch Cases.tracker_supplied.
Proof.
  apply (constructed_reachable fnmatch Scenario.linux (ArgStr "/tmp/Player.log")
           (Some 0) true Cases.supplied_world).
  - split; [reflexivity|]. intros i ob Hi.
    destruct i as [|i]; [injection Hi as <-; reflexivity|destruct i; discriminate].
  - vm_compute. reflexivity.
Qed.

(** X15: on a platform other than Windows a tracker never rotates, with
    or without [follow_current]: through any run of operations in such
    environments it keeps the path and the observer of construction and
    builds no other observer. *)
Theorem X15_no_rotation_off_windows (fnmatch : string -> string -> bool)
    (ops : list Op) (st : St) :
  reachable fnmatch st ->
  Forall off_windows ops ->
  quiet_step st (run_ops fnmatch ops st).
Proof.
  revert st. induction ops as [|op ops IH]; intros st Hr Hoff.
  - cbn. unfold quiet_step. auto.
  - rewrite run_ops_cons. apply List.Forall_cons_iff in Hoff as (Hop & Hoff).
    apply (quiet_step_trans st (snd (run_op fnmatch op st))).
    + destruct (op_step_ok fnmatch op st (reachable_inv _ _ Hr))
        as (_ & _ & _ & Hq & _).
      destruct Hq as [Hq|(_ & env & p & Hrot & Hfind & _)]; [exact Hq|].
      apply rotation_env_some in Hrot as (_ & Henv).
      unfold off_windows in Hop. rewrite Henv in Hop.
      destruct (find_logfile_ok env p Hfind) as (Hs & _). contradiction.
    + apply IH; [apply reach_step, Hr|exact Hoff].
Qed.

Lemma X15_witness :
  let st := Cases.tracker_supplied in
  let st' := run_ops String.eqb
               [OpMoved Scenario.linux;
                OpDispatch Scenario.linux Cases.tmp_handler Cases.tracked_moved] st in
  follow_current (self st) = true
  /\ path (self st') = Scenario.tmp_player
  /\ observer (self st') = 0.
Proof.
  cbn zeta.
  destruct (X15_no_rotation_off_windows String.eqb
              [OpMoved Scenario.linux;
               OpDispatch Scenario.linux Cases.tmp_handler Cases.tracked_moved]
              Cases.tracker_supplied (tracker_supplied_reachable String.eqb))
    as (Hp & Ho & _).
  { repeat apply List.Forall_cons; try apply List.Forall_nil;
      unfold off_windows; cbn; discriminate. }
  split; [reflexivity|].
  split; [rewrite Hp; reflexivity|rewrite Ho; reflexivity].
Defined.

(* ===================================================================== *)
(** ** The observers of a rotation                                        *)
(* ===================================================================== *)

(** The store a rotation leaves, when the resolver finds the log file. *)
Lemma rotation_store (env : Env) (st : St) (ob : ObserverObj) (p : Path) :
  follow_current (self st) = true ->
  find_logfile env = Ok p ->
  store (world st) !! observer (self st) = Some ob ->
  started ob = true ->
  let st' := snd (handle_log_moved env st) in
  let o := observer (self st) in
  let n := length (store (world st)) in
  store (world st') !! o = Some (quiesced ob)
  /\ (alive (quiesced ob) = true -> length (store (world st')) = n)
  /\ (alive (quiesced ob) = false ->
      store (world st') !! n
      = Some (obj_start (obj_schedule
                (mkWatch (event_handler (self st)) (parent p) false)
                (fresh_observer (observer_class env) (observer_quiesces env))))
      /\ length (store (world st')) = S n).
Proof.
  intros Hfc Hp Hob Hst. cbn zeta.
  assert (Hlt : observer (self st) < length (store (world st)))
    by (eapply lookup_lt_Some; eauto).
  rewrite (handle_log_moved_run env st ob p Hfc Hp Hob Hst). cbn zeta.
  pose proof (length_after_stop_join (observer (self st)) ob p (world st)) as Hlen.
  assert (Hold : store (after_stop_join (observer (self st)) ob
                          (after_resolution p (world st))) !! observer (self st)
                 = Some (quiesced ob)).
  { unfold after_stop_join, after_resolution. cbn [store].
    apply list_lookup_insert_eq, Hlt. }
  destruct (alive (quiesced ob)); cbn [snd world].
  - split; [exact Hold|]. split; [intros _; exact Hlen|discriminate].
  - unfold after_restart. cbn [store].
    split; [rewrite lookup_app_l by (rewrite Hlen; exact Hlt); exact Hold|].
    split; [discriminate|]. intros _.
    split; [rewrite <- Hlen; apply lookup_snoc|].
    rewrite length_app, Hlen. cbn. lia.
Qed.





(** X18: Stopped is not final for a tracker with [follow_current]: a
    Moved handling on a Stopped tracker, when the resolver finds the log
    file, builds and starts a new observer, so that the tracker is
    Watching again with one active watch handle; the watch carries the
    event handler the tracker has then, none after a Deleted handling. *)
Theorem X18_moved_handling_revives_stopped_tracker
    (fnmatch : string -> string -> bool) (env : Env) (st : St) (p : Path) :
  reachable fnmatch st ->
  state st = Stopped ->
  follow_current (self st) = true ->
  find_logfile env = Ok p ->
  let st' := snd (handle_log_moved env st) in
  fst (handle_log_moved env st) = Ok tt
  /\ state st' = Watching
  /\ active_handles (store (world st')) = 1
  /\ path (self st') = p
  /\ (watches <$> store (world st') !! observer (self st'))
     = Some [mkWatch (event_handler (self st)) (parent p) false].
Proof.
  intros Hr Hs Hfc Hp. cbn zeta.
  pose proof (reachable_inv _ _ Hr) as Hinv.
  pose proof (dead_not_active st (proj1 (stopped_dead st) Hs)) as Ha.
  destruct (rotation env st p Hinv Hfc Hp) as (_ & Hquiet).
  destruct (Hquiet Ha) as (Hres & _ & _ & Hself & Hal & Hcnt & _).
  destruct Hinv as ((ob & Hob & Hst) & _).
  destruct (rotation_store env st ob p Hfc Hp Hob Hst) as (_ & _ & Hnew).
  rewrite (still_active_eq st ob Hob) in Ha.
  destruct (Hnew Ha) as (Hn & _).
  split; [exact Hres|]. split; [apply watching_alive, Hal|].
  split; [exact Hcnt|].
  rewrite Hself. cbn [path observer with_observer with_path].
  split; [reflexivity|]. rewrite Hn. reflexivity.
Qed.

Lemma X18_witness :
  let st := Scenario.tracker_stopped in
  let st' := snd (handle_log_moved Scenario.windows st) in
  state st = Stopped
  /\ event_handler (self st) = None
  /\ state st' = Watching
  /\ (watches <$> store (world st') !! observer (self st'))
     = Some [mkWatch None (parent Scenario.default_player) false].
Proof.
  cbn zeta.
  destruct (X18_moved_handling_revives_stopped_tracker String.eqb Scenario.windows
              Scenario.tracker_stopped Scenario.default_player
              (tracker_stopped_reachable String.eqb) eq_refl eq_refl eq_refl)
    as (_ & Hs & _ & _ & Hw).
  split; [reflexivity|]. split; [reflexivity|]. split; [exact Hs|exact Hw].
Defined.

(* ===================================================================== *)
(** ** The file the resolver looks for                                    *)
(* ===================================================================== *)

Lemma div_name (p : Path) (s : string) :
  part_ok s = true -> p // s = mkPath (anchor p) (parts p ++ [s]).
Proof.
  intros Hs. apply part_ok_spec in Hs as (Hk & Hsl).
  unfold Pathlib.div, joinpath, Path_of_str, anchor_of.
  assert (Hlead : leading slash s = 0).
  { destruct s as [|a s]; [reflexivity|]. cbn in Hsl |- *.
    apply orb_false_iff in Hsl as (Ha & _). rewrite Ha. reflexivity. }
  rewrite Hlead, (split_on_no_slash s Hsl). cbn [anchor parts List.filter].
  rewrite Hk. reflexivity.
Qed.

Lemma logfile_path_parts (env : Env) :
  logfile_path env
  = mkPath (anchor (appdata_locallow env))
           (parts (appdata_locallow env)
            ++ [COMPANY_SUBFOLDER_NAME; APPLICATION_SUBFOLDER_NAME;
                CURRENT_LOGFILE_NAME]).
Proof.
  unfold logfile_path. rewrite !div_name by reflexivity.
  cbn [anchor parts]. rewrite <- !app_assoc. reflexivity.
Qed.

Lemma appdata_locallow_parts (env : Env) :
  exists base, appdata_locallow env
               = mkPath (anchor base) (parts base ++ ["LocalLow"]).
Proof.
  unfold appdata_locallow. destruct (environ env "appdata") as [v|].
  - exists (parent (Path_of_str v)). apply div_name. reflexivity.
  - exists (home env // "AppData"). apply div_name. reflexivity.
Qed.

(** X19: whatever the environment, the file the resolver looks for is
    named [Player.log] and lies in [Wizards Of The Coast/MTGA] under a
    directory named [LocalLow]: three levels up from the file is the
    [LocalLow] directory whose existence is checked first. *)
Theorem X19_resolver_candidate_shape (env : Env) :
  name (logfile_path env) = "Player.log"
  /\ name (parent (logfile_path env)) = "MTGA"
  /\ name (parent (parent (logfile_path env))) = "Wizards Of The Coast"
  /\ parent (parent (parent (logfile_path env))) = appdata_locallow env
  /\ name (appdata_locallow env) = "LocalLow"
  /\ parts (logfile_path env) <> [].
Proof.
  rewrite logfile_path_parts.
  destruct (appdata_locallow_parts env) as (base & Hbase).
  rewrite Hbase. unfold name, parent. cbn [anchor parts].
  change [COMPANY_SUBFOLDER_NAME; APPLICATION_SUBFOLDER_NAME; CURRENT_LOGFILE_NAME]
    with ([COMPANY_SUBFOLDER_NAME] ++ [APPLICATION_SUBFOLDER_NAME]
          ++ [CURRENT_LOGFILE_NAME]).
  rewrite !app_assoc.
  rewrite !removelast_last, !last_last.
  repeat split. intros H. apply app_eq_nil in H as (_ & H). discriminate.
Qed.


